(** * Game Time Tracker: session aggregator and timer state machine

    A shallow embedding of the aggregation code of [js/sqlite-handler.js]
    ([prepareDailyTrendData], [generateSummaryStats]), of the statistics and
    load endpoints of [server.js], and of the timer methods of the
    [GameTimeTracker] class (the variant with the kovaaks alarm), together
    with the properties the specification states about them.

    Conventions of the embedding:
    - a JavaScript number that the code only ever adds is an integer [Z];
      where the code can produce [NaN] the type is [jsnum];
    - an object used as a dictionary is a [gmap string _];
    - a call that can throw returns a [Result];
    - the browser and Node runtime ([Date], [JSON.parse]) is the class
      [JsRuntime]; [RefClock] gives a concrete calendar and a small JSON
      reader, used to run the definitions on examples.

    Scope of the embedding: durations and match counts are integers small
    enough to be added exactly; a metadata object has at most the two
    properties the application writes, [matchTypes] (label to count) and
    [aimType] (a string); no game, date or label is a name that every
    object inherits (such as [constructor]); the elements of the page the
    timer methods use exist.

    The second part of the file covers the code around these functions:
    the save endpoint and the upload file name of [server.js], the pass
    of [SQLiteHandler.loadFromDatabase] as a function, the summary of
    [js/excel-handler.js], the displays of the timer and of the
    statistics, the filter of [updateTodayStats], the saving and loading
    of the tracker's collection, and the wait loop of [start-app.js]. *)

From Stdlib Require Import ZArith String Ascii List QArith_base Qreduction.
From Stdlib Require Import DecimalString DecimalZ.
From stdpp Require Import gmap strings list fin_maps sorting.

Local Open Scope string_scope.
Local Open Scope list_scope.
Local Open Scope Z_scope.

(* ===================================================================== *)
(** ** JavaScript values and exceptions *)
(* ===================================================================== *)

(** The exceptions the modelled code can raise. *)
Inductive JsError := RangeError | TypeError | SyntaxError.

(** Outcome of a call: a value or a thrown exception. *)
Inductive Result (A : Type) :=
  | Ok (a : A)
  | Throw (e : JsError).
Arguments Ok {A} a.
Arguments Throw {A} e.

#[global] Instance JsError_eq_dec : EqDecision JsError.
Proof. solve_decision. Defined.

#[global] Instance Result_eq_dec {A} `{EqDecision A} : EqDecision (Result A).
Proof. solve_decision. Defined.

Definition bindR {A B} (r : Result A) (k : A -> Result B) : Result B :=
  match r with
  | Ok a => k a
  | Throw e => Throw e
  end.

#[global] Instance Result_ret : MRet Result := fun A a => Ok a.
#[global] Instance Result_bind : MBind Result := fun A B k r => bindR r k.

(** [l.forEach(f)] where [f] updates an accumulator and may throw. *)
Fixpoint forEachR {A T} (f : T -> A -> Result T) (acc : T) (l : list A)
  : Result T :=
  match l with
  | [] => Ok acc
  | x :: l' => acc' ← f acc x; forEachR f acc' l'
  end.

(** A number stored in a dictionary whose key may never have been
    initialised: [undefined + n] is [NaN] and [NaN] is absorbing. *)
Inductive jsnum :=
  | Num (z : Z)
  | NaN.

#[global] Instance jsnum_eq_dec : EqDecision jsnum.
Proof. solve_decision. Defined.

(** [obj[key] += n] reads [obj[key]] first: [None] is [undefined]. *)
Definition js_plus_assign (old : option jsnum) (n : Z) : jsnum :=
  match old with
  | Some (Num a) => Num (a + n)
  | Some NaN => NaN
  | None => NaN
  end.

(** [x || 0] on a field that is a number, [null] or [undefined]. *)
Definition or_zero (x : option Z) : Z :=
  match x with
  | Some n => n
  | None => 0
  end.

(** [(obj[key] || 0) + n] on a dictionary of integers. *)
Definition bump (m : gmap string Z) (key : string) (n : Z) : gmap string Z :=
  <[key := or_zero (m !! key) + n]> m.

(** [a / b] for an integer [a] and a positive count [b]; the quotient is
    kept as a reduced fraction. *)
Definition js_div (a : Z) (b : nat) : Q := Qred (Qmake a (Pos.of_nat b)).

(** [Math.round(a / b)] for [b > 0]: the nearest integer, a tie going
    towards plus infinity, that is [floor(a/b + 1/2)]. *)
Definition Math_round_div (a b : Z) : Z := (2 * a + b) / (2 * b).

(** [Math.floor(a / b)] for [b > 0]. *)
Definition Math_floor_div (a b : Z) : Z := a / b.

(* ===================================================================== *)
(** ** Strings: [split('T')[0]] and the order used by [Array.prototype.sort] *)
(* ===================================================================== *)

(** [s.split('T')[0]]: the part of [s] before the first ['T']. *)
Fixpoint split_T_0 (s : string) : string :=
  match s with
  | EmptyString => EmptyString
  | String c s' =>
      if Ascii.eqb c "T"%char then EmptyString else String c (split_T_0 s')
  end.

(** Default comparison of [sort()] on strings: code unit by code unit. *)
Definition str_le (s1 s2 : string) : Prop := String.leb s1 s2 = true.
Definition str_lt (s1 s2 : string) : Prop := String.ltb s1 s2 = true.

#[global] Instance str_le_dec : RelDecision str_le.
Proof. intros s1 s2. unfold str_le. apply _. Defined.

#[global] Instance str_lt_dec : RelDecision str_lt.
Proof. intros s1 s2. unfold str_lt. apply _. Defined.

(** [/^\d{4}-\d{2}-\d{2}$/] *)
Definition is_digit (c : ascii) : bool :=
  let n := N_of_ascii c in ((48 <=? n) && (n <=? 57))%N.

Definition matches_ymd (s : string) : bool :=
  match list_ascii_of_string s with
  | [y1; y2; y3; y4; d1; m1; m2; d2; a1; a2] =>
      forallb is_digit [y1; y2; y3; y4; m1; m2; a1; a2]
      && Ascii.eqb d1 "-"%char && Ascii.eqb d2 "-"%char
  | _ => false
  end.

(* ===================================================================== *)
(** ** Data model: session records *)
(* ===================================================================== *)

(** A metadata object.  [matchTypes] is the list [Object.entries] yields
    for the [matchTypes] property (label, count); [aimType] the selected
    training type.  [None] stands for a property that is absent or holds
    [null]. *)
Record MetaObj := {
  matchTypes : option (list (string * Z));
  aimType : option string
}.

(** The literal [{}]. *)
Definition emptyObj : MetaObj := {| matchTypes := None; aimType := None |}.

(** What the [metadata] property of a session can hold: nothing
    ([undefined] or [null]), a string that was not parsed, or an object. *)
Inductive Metadata :=
  | MetaAbsent
  | MetaText (s : string)
  | MetaObject (o : MetaObj).

(** A session object.  [durationMinutes = None] is a missing, [undefined]
    or [null] property. *)
Record Session := {
  game : string;
  date : string;
  startTime : string;
  endTime : option string;
  durationMinutes : option Z;
  metadata : Metadata
}.

(** Truthiness of a metadata value and of a string. *)
Definition str_truthy (s : string) : bool := negb (String.eqb s EmptyString).

Definition meta_truthy (m : Metadata) : bool :=
  match m with
  | MetaAbsent => false
  | MetaText s => str_truthy s
  | MetaObject _ => true
  end.

(** [m.p] for a property [p] of a metadata object: a [TypeError] on
    [undefined]/[null], [undefined] on a string primitive. *)
Definition member {A} (m : Metadata) (p : MetaObj -> option A)
  : Result (option A) :=
  match m with
  | MetaAbsent => Throw TypeError
  | MetaText _ => Ok None
  | MetaObject o => Ok (p o)
  end.

(** [m && m.p]: the right operand is evaluated only when [m] is truthy. *)
Definition and_member {A} (m : Metadata) (p : MetaObj -> option A)
  : Result (option A) :=
  if meta_truthy m then member m p else Ok None.

(** The parts of the runtime the code calls:
    - [Date_parse s] is the time value of [new Date(s)], [None] for an
      Invalid Date;
    - [toISOString t] is [Date.prototype.toISOString] at time value [t];
    - [JSON_parse s] is [JSON.parse(s)], [None] when it throws. *)
Class JsRuntime := {
  Date_parse : string -> option Z;
  toISOString : Z -> string;
  JSON_parse : string -> option Metadata
}.

(** [new Date(s).toISOString().split('T')[0]]: [toISOString] throws a
    [RangeError] on an Invalid Date. *)
Definition isoDateOf `{JsRuntime} (s : string) : Result string :=
  match Date_parse s with
  | Some t => Ok (split_T_0 (toISOString t))
  | None => Throw RangeError
  end.

(** [new Date(t).toISOString().split('T')[0]] for a clock reading [t]. *)
Definition isoDateAt `{JsRuntime} (t : Z) : string := split_T_0 (toISOString t).

(* ===================================================================== *)
(** ** [SQLiteHandler.prepareDailyTrendData] *)
(* ===================================================================== *)

(** [{ valorant: 0, kovaaks: 0 }] *)
Definition zeroGames : gmap string jsnum :=
  <["valorant" := Num 0]> (<["kovaaks" := Num 0]> ∅).

(** [obj[key] += n] *)
Definition plus_assign (obj : gmap string jsnum) (key : string) (n : Z)
  : gmap string jsnum :=
  <[key := js_plus_assign (obj !! key) n]> obj.

(** Body of the [sessions.forEach] of [prepareDailyTrendData]. *)
Definition daily_step `{JsRuntime} (dailyData : gmap string (gmap string jsnum))
    (session : Session) : Result (gmap string (gmap string jsnum)) :=
  dateStr ← isoDateOf (date session);
  let dailyData1 :=
    match dailyData !! dateStr with
    | None => <[dateStr := zeroGames]> dailyData
    | Some _ => dailyData
    end in
  let durationMinutes := or_zero (durationMinutes session) in
  Ok (alter (fun bucket => plus_assign bucket (game session) durationMinutes)
            dateStr dailyData1).

(** [Object.keys(obj).sort()] *)
Definition sorted_keys {V} (obj : gmap string V) : list string :=
  merge_sort str_le (map fst (map_to_list obj)).

(** [dailyData[date][g]] *)
Definition daily_get (dailyData : gmap string (gmap string jsnum))
    (g date : string) : option jsnum :=
  bucket ← dailyData !! date; bucket !! g.

Record Dataset := {
  label : string;
  data : list (option jsnum)
}.

Record ChartData := {
  labels : list string;
  datasets : list Dataset
}.

Definition chart_of (dailyData : gmap string (gmap string jsnum)) : ChartData :=
  let sortedDates := sorted_keys dailyData in
  {| labels := sortedDates;
     datasets :=
       [ {| label := "Valorant";
            data := map (daily_get dailyData "valorant") sortedDates |};
         {| label := "Kovaaks Aim Trainer";
            data := map (daily_get dailyData "kovaaks") sortedDates |} ] |}.

Definition dailyDataOf `{JsRuntime} (sessions : list Session)
  : Result (gmap string (gmap string jsnum)) :=
  forEachR daily_step ∅ sessions.

Definition prepareDailyTrendData `{JsRuntime} (sessions : list Session)
  : Result ChartData :=
  dailyData ← dailyDataOf sessions;
  Ok (chart_of dailyData).

(** The two data rows of a chart. *)
Definition valorant_data (c : ChartData) : list (option jsnum) :=
  match datasets c with
  | d :: _ => data d
  | [] => []
  end.

Definition kovaaks_data (c : ChartData) : list (option jsnum) :=
  match datasets c with
  | _ :: d :: _ => data d
  | _ => []
  end.

(* ===================================================================== *)
(** ** [SQLiteHandler.generateSummaryStats] *)
(* ===================================================================== *)

Record Stats := {
  totalSessions : nat;
  totalTimeMinutes : Z;
  avgSessionMinutes : Q;
  gameBreakdown : gmap string jsnum;
  valorantMatchTypes : gmap string Z;
  kovaaksAimTypes : gmap string Z
}.

(** The locals the [forEach] callback updates. *)
Record SummaryAcc := {
  acc_total : Z;
  acc_games : gmap string jsnum;
  acc_match : gmap string Z;
  acc_aim : gmap string Z
}.

Definition summary_init : SummaryAcc :=
  {| acc_total := 0; acc_games := zeroGames; acc_match := ∅; acc_aim := ∅ |}.

(** [Object.entries(mt).forEach(([type, count]) => ...)] *)
Definition add_matchTypes (vm : gmap string Z) (entries : list (string * Z))
  : gmap string Z :=
  fold_left (fun m e => bump m (fst e) (snd e)) entries vm.

(** The valorant branch of the callback. *)
Definition match_branch (session : Session) (vm : gmap string Z)
  : Result (gmap string Z) :=
  if String.eqb (game session) "valorant" then
    mt ← and_member (metadata session) matchTypes;
    match mt with
    | Some entries => Ok (add_matchTypes vm entries)
    | None => Ok vm
    end
  else Ok vm.

(** The kovaaks branch; [minutes] is the number the callback adds. *)
Definition aim_branch (session : Session) (minutes : Z) (ka : gmap string Z)
  : Result (gmap string Z) :=
  if String.eqb (game session) "kovaaks" then
    at_ ← and_member (metadata session) aimType;
    match at_ with
    | Some aimType => if str_truthy aimType then Ok (bump ka aimType minutes) else Ok ka
    | None => Ok ka
    end
  else Ok ka.

(** Body of the [sessions.forEach] of [generateSummaryStats]. *)
Definition summary_step (acc : SummaryAcc) (session : Session)
  : Result SummaryAcc :=
  let durationMinutes := or_zero (durationMinutes session) in
  let totalTimeMinutes := acc_total acc + durationMinutes in
  let gameBreakdown := plus_assign (acc_games acc) (game session) durationMinutes in
  vm ← match_branch session (acc_match acc);
  ka ← aim_branch session durationMinutes (acc_aim acc);
  Ok {| acc_total := totalTimeMinutes; acc_games := gameBreakdown;
        acc_match := vm; acc_aim := ka |}.

Definition zeroStats : Stats :=
  {| totalSessions := 0; totalTimeMinutes := 0; avgSessionMinutes := 0%Q;
     gameBreakdown := zeroGames; valorantMatchTypes := ∅; kovaaksAimTypes := ∅ |}.

Definition generateSummaryStats (sessions : list Session) : Result Stats :=
  if Nat.eqb (length sessions) 0 then Ok zeroStats
  else
    acc ← forEachR summary_step summary_init sessions;
    Ok {| totalSessions := length sessions;
          totalTimeMinutes := acc_total acc;
          avgSessionMinutes := js_div (acc_total acc) (length sessions);
          gameBreakdown := acc_games acc;
          valorantMatchTypes := acc_match acc;
          kovaaksAimTypes := acc_aim acc |}.

(* ===================================================================== *)
(** ** [server.js]: the stored rows, [/api/sessions/load], [/api/sessions/stats] *)
(* ===================================================================== *)

(** A row of table [game_sessions]; a nullable column is an [option]. *)
Record Row := {
  row_id : Z;
  row_game : string;
  row_date : string;
  row_startTime : string;
  row_endTime : option string;
  row_durationMinutes : option Z;
  row_metadata : option string
}.

(** SQL [SUM]: [NULL] entries are skipped, and the sum of no value at all
    is [NULL]. *)
Definition sql_sum (xs : list (option Z)) : option Z :=
  match omap id xs with
  | [] => None
  | ys => Some (foldr Z.add 0 ys)
  end.

(** [SELECT SUM(durationMinutes) ... WHERE game = g] *)
Definition sum_where_game (g : string) (rows : list Row) : option Z :=
  sql_sum (map row_durationMinutes
             (filter (fun r => row_game r = g) rows)).

(** The metadata loop shared by the load and the stats handlers:
    [if (session.metadata) { try { JSON.parse } catch { {} } } else { {} }]. *)
Definition parseStoredMetadata `{JsRuntime} (md : option string) : Metadata :=
  match md with
  | Some s =>
      if str_truthy s then
        match JSON_parse s with
        | Some v => v
        | None => MetaObject emptyObj
        end
      else MetaObject emptyObj
  | None => MetaObject emptyObj
  end.

(** The object [better-sqlite3] returns for a row, once its metadata has
    been replaced by the parsed value. *)
Definition parsed_row `{JsRuntime} (r : Row) : Session :=
  {| game := row_game r;
     date := row_date r;
     startTime := row_startTime r;
     endTime := row_endTime r;
     durationMinutes := row_durationMinutes r;
     metadata := parseStoredMetadata (row_metadata r) |}.

(** [n + session.durationMinutes] on the server, where the column may be
    [null]: [null] converts to [0]. *)
Definition plus_nullable (x : option Z) : Z := or_zero x.

(** Second [forEach] of the stats handler. *)
Definition server_step (acc : gmap string Z * gmap string Z) (session : Session)
  : Result (gmap string Z * gmap string Z) :=
  vm ← match_branch session (fst acc);
  ka ← aim_branch session (plus_nullable (durationMinutes session)) (snd acc);
  Ok (vm, ka).

(** Handler of [GET /api/sessions/stats]: the [stats] of the 200 response;
    an exception is what the [catch] turns into a 500 response. *)
Definition stats_endpoint `{JsRuntime} (rows : list Row) : Result Stats :=
  let totalSessions := length rows in
  let totalTimeMinutes := or_zero (sql_sum (map row_durationMinutes rows)) in
  let avgSessionMinutes :=
    if Nat.ltb 0 totalSessions then js_div totalTimeMinutes totalSessions
    else 0%Q in
  let valorantMinutes := or_zero (sum_where_game "valorant" rows) in
  let kovaaksMinutes := or_zero (sum_where_game "kovaaks" rows) in
  let sessions := map parsed_row rows in
  acc ← forEachR server_step (∅, ∅) sessions;
  Ok {| totalSessions := totalSessions;
        totalTimeMinutes := totalTimeMinutes;
        avgSessionMinutes := avgSessionMinutes;
        gameBreakdown :=
          <["valorant" := Num valorantMinutes]>
            (<["kovaaks" := Num kovaaksMinutes]> ∅);
        valorantMatchTypes := fst acc;
        kovaaksAimTypes := snd acc |}.

(** Date part of the load handler's loop. *)
Definition load_date `{JsRuntime} (d : string) : Result string :=
  if str_truthy d then
    if negb (matches_ymd d) then isoDateOf d else Ok d
  else Ok d.

(** Body of the [forEach] of the load handler. *)
Definition load_row `{JsRuntime} (r : Row) : Result Session :=
  let md := parseStoredMetadata (row_metadata r) in
  d ← load_date (row_date r);
  Ok {| game := row_game r;
        date := d;
        startTime := row_startTime r;
        endTime := row_endTime r;
        durationMinutes := row_durationMinutes r;
        metadata := md |}.

(** Handler of [GET /api/sessions/load]: the [sessions] of the response. *)
Definition load_endpoint `{JsRuntime} (rows : list Row) : Result (list Session) :=
  mapM load_row rows.

(* ===================================================================== *)
(** ** [SQLiteHandler.loadFromDatabase]: the client's pass over loaded records *)
(* ===================================================================== *)

(** Body of the [sessions.forEach] of [loadFromDatabase]; it assigns to the
    [date] and [metadata] properties of the record it is given.
    [startTime] and [endTime] are strings and are left alone. *)
Definition client_load_step `{JsRuntime} (session : Session) : Result Session :=
  d ← (if str_truthy (date session) then
         if matches_ymd (date session) then Ok (date session)
         else isoDateOf (date session)
       else Ok (date session));
  let md :=
    match metadata session with
    | MetaText s =>
        if str_truthy s then
          match JSON_parse s with
          | Some v => v
          | None => MetaObject emptyObj
          end
        else MetaText s
    | other => other
    end in
  Ok {| game := game session;
        date := d;
        startTime := startTime session;
        endTime := endTime session;
        durationMinutes := durationMinutes session;
        metadata := md |}.

(* ===================================================================== *)
(** ** The session array as a mutable store *)
(* ===================================================================== *)

(** The functions above receive a reference to an array of objects.  To
    speak about what a call does to its argument, the array is a store of
    records addressed by index and a call is a store transformer that also
    yields a value or an exception. *)
Definition Heap := list Session.

Definition Eff (A : Type) : Type := Heap -> Heap * Result A.

Definition eff_ret {A} (a : A) : Eff A := fun h => (h, Ok a).

Definition eff_bind {A B} (m : Eff A) (k : A -> Eff B) : Eff B :=
  fun h =>
    match m h with
    | (h', Ok a) => k a h'
    | (h', Throw e) => (h', Throw e)
    end.

(** A computation that touches no record. *)
Definition eff_lift {A} (r : Result A) : Eff A := fun h => (h, r).

(** Reading record [i]; writing record [i] (an assignment to one of its
    properties replaces the record at that index). *)
Definition getSession (i : nat) : Eff Session :=
  fun h =>
    match h !! i with
    | Some s => (h, Ok s)
    | None => (h, Throw TypeError)
    end.

Definition setSession (i : nat) (s : Session) : Eff unit :=
  fun h => (<[i := s]> h, Ok tt).

(** [sessions.forEach(cb)]: indices [i], [i+1], ... for [n] records. *)
Fixpoint forEachFrom {T} (cb : nat -> T -> Eff T) (i n : nat) (acc : T) : Eff T :=
  match n with
  | O => eff_ret acc
  | S n' => eff_bind (cb i acc) (fun acc' => forEachFrom cb (S i) n' acc')
  end.

Definition forEachE {T} (cb : nat -> T -> Eff T) (acc : T) : Eff T :=
  fun h => forEachFrom cb 0 (length h) acc h.


(** A callback that assigns to properties of its record. *)
Definition assigning (body : Session -> Result Session) : nat -> unit -> Eff unit :=
  fun i _ =>
    eff_bind (getSession i) (fun session =>
    eff_bind (eff_lift (body session)) (fun session' =>
    setSession i session')).



Definition loadFromDatabase_on `{JsRuntime} : Eff unit :=
  forEachE (assigning client_load_step) tt.

(* ===================================================================== *)
(** ** A concrete calendar and a small JSON reader *)
(* ===================================================================== *)

Module RefClock.

Definition digit (n : Z) : ascii := ascii_of_N (48 + Z.to_N (n mod 10)).

(** The [w] low decimal digits of [n], most significant first. *)
Fixpoint pad (w : nat) (n : Z) : string :=
  match w with
  | O => EmptyString
  | S w' => pad w' (n / 10) +:+ String (digit n) EmptyString
  end.

(** Proleptic Gregorian calendar: day number (0 = 1970-01-01) to year,
    month, day and back. *)
Definition civil_from_days (z0 : Z) : Z * Z * Z :=
  let z := z0 + 719468 in
  let era := z / 146097 in
  let doe := z - era * 146097 in
  let yoe := (doe - doe / 1460 + doe / 36524 - doe / 146096) / 365 in
  let doy := doe - (365 * yoe + yoe / 4 - yoe / 100) in
  let mp := (5 * doy + 2) / 153 in
  let d := doy - (153 * mp + 2) / 5 + 1 in
  let m := if mp <? 10 then mp + 3 else mp - 9 in
  let y := yoe + era * 400 + (if m <=? 2 then 1 else 0) in
  (y, m, d).

Definition days_from_civil (y0 m d : Z) : Z :=
  let y := if m <=? 2 then y0 - 1 else y0 in
  let era := y / 400 in
  let yoe := y - era * 400 in
  let doy := (153 * (if 2 <? m then m - 3 else m + 9) + 2) / 5 + d - 1 in
  let doe := yoe * 365 + yoe / 4 - yoe / 100 + doy in
  era * 146097 + doe - 719468.

Definition fmt_year (y : Z) : string :=
  if (0 <=? y) && (y <=? 9999) then pad 4 y
  else (if y <? 0 then "-" else "+") +:+ pad 6 (Z.abs y).

Definition toISOString (t : Z) : string :=
  let ms := t mod 86400000 in
  let '(y, m, d) := civil_from_days (t / 86400000) in
  fmt_year y +:+ "-" +:+ pad 2 m +:+ "-" +:+ pad 2 d +:+ "T"
    +:+ pad 2 (ms / 3600000) +:+ ":" +:+ pad 2 (ms / 60000 mod 60) +:+ ":"
    +:+ pad 2 (ms / 1000 mod 60) +:+ "." +:+ pad 3 (ms mod 1000) +:+ "Z".

Definition digit_val (c : ascii) : Z := Z.of_N (N_of_ascii c) - 48.

(** The time value of a date-only string [YYYY-MM-DD] naming a day that
    exists (midnight UTC); every other string is an Invalid Date here. *)
Definition Date_parse (s : string) : option Z :=
  if matches_ymd s then
    match map digit_val (list_ascii_of_string s) with
    | [y1; y2; y3; y4; _; m1; m2; _; d1; d2] =>
        let y := 1000 * y1 + 100 * y2 + 10 * y3 + y4 in
        let m := 10 * m1 + m2 in
        let d := 10 * d1 + d2 in
        let t := days_from_civil y m d in
        if decide (civil_from_days t = (y, m, d)) then Some (t * 86400000)
        else None
    | _ => None
    end
  else None.

(** [s] without the prefix [p], when it has it. *)
Fixpoint strip_prefix (p s : string) : option string :=
  match p, s with
  | EmptyString, _ => Some s
  | String a p', String b s' =>
      if Ascii.eqb a b then strip_prefix p' s' else None
  | String _ _, EmptyString => None
  end.

(** Characters of a JSON string body that need no escape. *)
Definition plain_char (c : ascii) : bool :=
  let n := N_of_ascii c in
  ((32 <=? n) && (n <? 127) && negb (n =? 34) && negb (n =? 92))%N.

(** The double quote character and the opening of an object whose
    only property is [aimType], up to the quote that opens its value. *)
Definition dquote : ascii := ascii_of_N 34.

Definition aimType_prefix : string :=
  "{" +:+ String dquote "aimType" +:+ String dquote ":" +:+ String dquote EmptyString.

(** Splits a body followed by a double quote and a closing brace, when
    the body is made of plain characters. *)
Fixpoint string_body (s : string) : option string :=
  match s with
  | EmptyString => None
  | String c s' =>
      if Ascii.eqb c dquote then
        if String.eqb s' "}" then Some EmptyString else None
      else if plain_char c then String c <$> string_body s'
      else None
  end.

(** A reader for three shapes of JSON text: [null], [{}] and an object
    with the single property [aimType] holding a string without escapes.
    It reports every other string as a syntax error. *)
Definition JSON_parse (s : string) : option Metadata :=
  if String.eqb s "null" then Some MetaAbsent
  else if String.eqb s "{}" then Some (MetaObject emptyObj)
  else
    body ← strip_prefix aimType_prefix s ≫= string_body;
    Some (MetaObject {| matchTypes := None; aimType := Some body |}).

#[global] Instance runtime : JsRuntime :=
  Build_JsRuntime Date_parse toISOString JSON_parse.

End RefClock.

(* ===================================================================== *)
(** ** [GameTimeTracker]: the timer methods *)
(* ===================================================================== *)

(** The session object [startTimer] creates, and the assignments the later
    methods make to it. *)
Definition newSession (g d st : string) : Session :=
  {| game := g; date := d; startTime := st; endTime := None;
     durationMinutes := Some 0; metadata := MetaObject emptyObj |}.

Definition with_end (s : Session) (e : string) (minutes : Z) : Session :=
  {| game := game s; date := date s; startTime := startTime s;
     endTime := Some e; durationMinutes := Some minutes;
     metadata := metadata s |}.

Definition with_metadata (s : Session) (m : Metadata) : Session :=
  {| game := game s; date := date s; startTime := startTime s;
     endTime := endTime s; durationMinutes := durationMinutes s;
     metadata := m |}.

Module Timer.

(** The part of the page the timer methods read and write.  The elements
    are taken to exist; [_shown] is [style.display] other than [none]. *)
Record Dom := {
  gameSelect_value : string;
  startButton_disabled : bool;
  endButton_disabled : bool;
  gameSelect_disabled : bool;
  metadataContainer_shown : bool;
  alarmSound_playing : bool;
  alarmNotification_shown : bool
}.

(** The fields of a [GameTimeTracker].  [timerInterval] tells whether
    the interval set by [startTimer] is still scheduled; [startTime] is
    [0] for the initial [null], which is what [null] is worth in a
    subtraction; [alarmPlays] counts the calls of [alarmSound.play()]. *)
Record Tracker := {
  timerInterval : bool;
  startTime : Z;
  elapsedTime : Z;
  isRunning : bool;
  sessions : list Session;
  currentSession : option Session;
  alarmTriggered : bool;
  alarmPlays : nat;
  dom : Dom
}.

Definition hourlyAlarmThreshold : Z := 60.

(** State built by the constructor, for the sessions found in local
    storage and the game shown by the selector; the end button starts
    disabled and the metadata form and alarm banner hidden. *)
Definition initial (stored : list Session) (selected : string) : Tracker :=
  {| timerInterval := false; startTime := 0; elapsedTime := 0;
     isRunning := false; sessions := stored; currentSession := None;
     alarmTriggered := false; alarmPlays := 0;
     dom := {| gameSelect_value := selected;
               startButton_disabled := false;
               endButton_disabled := true;
               gameSelect_disabled := false;
               metadataContainer_shown := false;
               alarmSound_playing := false;
               alarmNotification_shown := false |} |}.

(** [startTimer()], with [now] the reading of the clock. *)
Definition startTimer `{JsRuntime} (now : Z) (t : Tracker) : Tracker :=
  if isRunning t then t
  else
    {| isRunning := true;
       startTime := now - elapsedTime t;
       currentSession :=
         Some (newSession (gameSelect_value (dom t)) (isoDateAt now)
                          (toISOString now));
       dom := {| gameSelect_value := gameSelect_value (dom t);
                 startButton_disabled := true;
                 endButton_disabled := false;
                 gameSelect_disabled := true;
                 metadataContainer_shown := metadataContainer_shown (dom t);
                 alarmSound_playing := alarmSound_playing (dom t);
                 alarmNotification_shown := alarmNotification_shown (dom t) |};
       alarmTriggered := false;
       timerInterval := true;
       elapsedTime := elapsedTime t;
       sessions := sessions t;
       alarmPlays := alarmPlays t |}.

(** [showMetadataForm()], the handler of the end button.  The assignment
    to [this.currentSession.endTime] is a [TypeError] when there is no
    current session. *)
Definition showMetadataForm `{JsRuntime} (now : Z) (t : Tracker)
  : Result Tracker :=
  if negb (isRunning t) then Ok t
  else
    match currentSession t with
    | None => Throw TypeError
    | Some cur =>
        Ok {| timerInterval := false;
              currentSession :=
                Some (with_end cur (toISOString now)
                        (Math_round_div (elapsedTime t) 60000));
              dom := {| gameSelect_value := gameSelect_value (dom t);
                        startButton_disabled := startButton_disabled (dom t);
                        endButton_disabled := endButton_disabled (dom t);
                        gameSelect_disabled := gameSelect_disabled (dom t);
                        metadataContainer_shown := true;
                        alarmSound_playing := alarmSound_playing (dom t);
                        alarmNotification_shown :=
                          alarmNotification_shown (dom t) |};
              startTime := startTime t;
              elapsedTime := elapsedTime t;
              isRunning := isRunning t;
              sessions := sessions t;
              alarmTriggered := alarmTriggered t;
              alarmPlays := alarmPlays t |}
    end.

(** [endTimer()] *)
Definition endTimer `{JsRuntime} (now : Z) (t : Tracker) : Result Tracker :=
  showMetadataForm now t.

Definition hide_form (d : Dom) : Dom :=
  {| gameSelect_value := gameSelect_value d;
     startButton_disabled := startButton_disabled d;
     endButton_disabled := endButton_disabled d;
     gameSelect_disabled := gameSelect_disabled d;
     metadataContainer_shown := false;
     alarmSound_playing := alarmSound_playing d;
     alarmNotification_shown := alarmNotification_shown d |}.

(** [completeSession()].  With no current session [null] is pushed and
    the closing [updateTodayStats()] fails on it with a [TypeError]. *)
Definition completeSession (t : Tracker) : Result Tracker :=
  match currentSession t with
  | None => Throw TypeError
  | Some cur =>
      Ok {| sessions := sessions t ++ [cur];
            dom := {| gameSelect_value := gameSelect_value (dom t);
                      startButton_disabled := false;
                      endButton_disabled := true;
                      gameSelect_disabled := false;
                      metadataContainer_shown := metadataContainer_shown (dom t);
                      alarmSound_playing := alarmSound_playing (dom t);
                      alarmNotification_shown :=
                        alarmNotification_shown (dom t) |};
            elapsedTime := 0;
            isRunning := false;
            timerInterval := timerInterval t;
            startTime := startTime t;
            currentSession := currentSession t;
            alarmTriggered := alarmTriggered t;
            alarmPlays := alarmPlays t |}
  end.

(** [this.currentSession.metadata = m], then hide the form and complete. *)
Definition attach_and_complete (m : option Metadata) (t : Tracker)
  : Result Tracker :=
  match currentSession t with
  | None => Throw TypeError
  | Some cur =>
      let cur' := match m with
                  | Some md => with_metadata cur md
                  | None => cur
                  end in
      completeSession
        {| currentSession := Some cur';
           dom := hide_form (dom t);
           timerInterval := timerInterval t;
           startTime := startTime t;
           elapsedTime := elapsedTime t;
           isRunning := isRunning t;
           sessions := sessions t;
           alarmTriggered := alarmTriggered t;
           alarmPlays := alarmPlays t |}
  end.

(** [saveValorantMetadata()]; each argument is [parseInt] of an input,
    [None] for [NaN]. *)
Definition saveValorantMetadata (deathmatch competitive unrated spikeRush : option Z)
    (t : Tracker) : Result Tracker :=
  let matchTypes :=
    [ ("deathmatch", or_zero deathmatch);
      ("competitive", or_zero competitive);
      ("unrated", or_zero unrated);
      ("spikeRush", or_zero spikeRush) ] in
  attach_and_complete
    (Some (MetaObject {| matchTypes := Some matchTypes; aimType := None |})) t.

(** [saveKovaaksMetadata()]; the argument is the selector's value. *)
Definition saveKovaaksMetadata (aimType : string) (t : Tracker) : Result Tracker :=
  attach_and_complete
    (Some (MetaObject {| matchTypes := None; aimType := Some aimType |})) t.

(** [cancelMetadata()] *)
Definition cancelMetadata (t : Tracker) : Result Tracker :=
  attach_and_complete None t.

(** [triggerAlarm()] *)
Definition triggerAlarm (t : Tracker) : Tracker :=
  if alarmTriggered t then t
  else
    {| alarmTriggered := true;
       alarmPlays := S (alarmPlays t);
       dom := {| gameSelect_value := gameSelect_value (dom t);
                 startButton_disabled := startButton_disabled (dom t);
                 endButton_disabled := endButton_disabled (dom t);
                 gameSelect_disabled := gameSelect_disabled (dom t);
                 metadataContainer_shown := metadataContainer_shown (dom t);
                 alarmSound_playing := true;
                 alarmNotification_shown := true |};
       timerInterval := timerInterval t;
       startTime := startTime t;
       elapsedTime := elapsedTime t;
       isRunning := isRunning t;
       sessions := sessions t;
       currentSession := currentSession t |}.

(** [dismissAlarm()] *)
Definition dismissAlarm (t : Tracker) : Tracker :=
  {| dom := {| gameSelect_value := gameSelect_value (dom t);
               startButton_disabled := startButton_disabled (dom t);
               endButton_disabled := endButton_disabled (dom t);
               gameSelect_disabled := gameSelect_disabled (dom t);
               metadataContainer_shown := metadataContainer_shown (dom t);
               alarmSound_playing := false;
               alarmNotification_shown := false |};
     timerInterval := timerInterval t;
     startTime := startTime t;
     elapsedTime := elapsedTime t;
     isRunning := isRunning t;
     sessions := sessions t;
     currentSession := currentSession t;
     alarmTriggered := alarmTriggered t;
     alarmPlays := alarmPlays t |}.

(** The sum computed by [checkKovaaksTimeThreshold()]: the minutes of
    the completed kovaaks sessions dated [today], plus the whole minutes
    of the session in progress. *)
Definition completedKovaaksMinutes (today : string) (l : list Session) : Z :=
  fold_left
    (fun total session =>
       if String.eqb (game session) "kovaaks" && String.eqb (date session) today
       then total + or_zero (durationMinutes session)
       else total)
    l 0.

Definition todayKovaaksMinutes `{JsRuntime} (now : Z) (t : Tracker) : Z :=
  completedKovaaksMinutes (isoDateAt now) (sessions t)
  + Math_floor_div (elapsedTime t) 60000.

(** [checkKovaaksTimeThreshold()] *)
Definition checkKovaaksTimeThreshold `{JsRuntime} (now : Z) (t : Tracker)
  : Tracker :=
  if hourlyAlarmThreshold <=? todayKovaaksMinutes now t then triggerAlarm t
  else t.

(** [this.currentSession && this.currentSession.game === 'kovaaks'] *)
Definition current_is_kovaaks (t : Tracker) : bool :=
  match currentSession t with
  | Some cur => String.eqb (game cur) "kovaaks"
  | None => false
  end.

(** [updateTimer()], the interval callback. *)
Definition updateTimer `{JsRuntime} (now : Z) (t : Tracker) : Tracker :=
  let t1 :=
    {| elapsedTime := now - startTime t;
       timerInterval := timerInterval t;
       startTime := startTime t;
       isRunning := isRunning t;
       sessions := sessions t;
       currentSession := currentSession t;
       alarmTriggered := alarmTriggered t;
       alarmPlays := alarmPlays t;
       dom := dom t |} in
  if current_is_kovaaks t1 && negb (alarmTriggered t1)
  then checkKovaaksTimeThreshold now t1
  else t1.

Definition select_game (g : string) (t : Tracker) : Tracker :=
  {| dom := {| gameSelect_value := g;
               startButton_disabled := startButton_disabled (dom t);
               endButton_disabled := endButton_disabled (dom t);
               gameSelect_disabled := gameSelect_disabled (dom t);
               metadataContainer_shown := metadataContainer_shown (dom t);
               alarmSound_playing := alarmSound_playing (dom t);
               alarmNotification_shown := alarmNotification_shown (dom t) |};
     timerInterval := timerInterval t;
     startTime := startTime t;
     elapsedTime := elapsedTime t;
     isRunning := isRunning t;
     sessions := sessions t;
     currentSession := currentSession t;
     alarmTriggered := alarmTriggered t;
     alarmPlays := alarmPlays t |}.

(** The [change] listener of the game selector: the selector already
    shows [g]; [confirmed] is the answer to the confirmation dialog. *)
Definition gameChanged `{JsRuntime} (g : string) (confirmed : bool) (now : Z)
    (t : Tracker) : Result Tracker :=
  let t1 := select_game g t in
  if isRunning t1 then
    if confirmed then endTimer now t1
    else
      match currentSession t1 with
      | Some cur => Ok (select_game (game cur) t1)
      | None => Throw TypeError
      end
  else Ok t1.

(** [this.sessions = sessions], when a load from the database resolves. *)
Definition loaded (l : list Session) (t : Tracker) : Tracker :=
  {| sessions := l;
     timerInterval := timerInterval t;
     startTime := startTime t;
     elapsedTime := elapsedTime t;
     isRunning := isRunning t;
     currentSession := currentSession t;
     alarmTriggered := alarmTriggered t;
     alarmPlays := alarmPlays t;
     dom := dom t |}.

(** What can happen to a tracker: clicks, the interval firing, a load
    resolving.  [now] is the clock reading at that moment. *)
Inductive Event :=
  | ClickStart (now : Z)
  | ClickEnd (now : Z)
  | Tick (now : Z)
  | ChangeGame (g : string) (confirmed : bool) (now : Z)
  | ClickSaveValorant (deathmatch competitive unrated spikeRush : option Z)
  | ClickSaveKovaaks (aimType : string)
  | ClickCancel
  | ClickDismiss
  | Loaded (l : list Session).

(** The listeners registered by [initEventListeners]. *)
Definition handle `{JsRuntime} (e : Event) (t : Tracker) : Result Tracker :=
  match e with
  | ClickStart now => Ok (startTimer now t)
  | ClickEnd now => showMetadataForm now t
  | Tick now => Ok (updateTimer now t)
  | ChangeGame g confirmed now => gameChanged g confirmed now t
  | ClickSaveValorant a b c d => saveValorantMetadata a b c d t
  | ClickSaveKovaaks a => saveKovaaksMetadata a t
  | ClickCancel => cancelMetadata t
  | ClickDismiss => Ok (dismissAlarm t)
  | Loaded l => Ok (loaded l t)
  end.

(** When the page lets the event happen: a disabled control receives no
    click, a hidden form none either, and the interval callback runs
    only while the interval is scheduled. *)
Definition enabled (e : Event) (t : Tracker) : bool :=
  match e with
  | ClickStart _ => negb (startButton_disabled (dom t))
  | ClickEnd _ => negb (endButton_disabled (dom t))
  | Tick _ => timerInterval t
  | ChangeGame _ _ _ => negb (gameSelect_disabled (dom t))
  | ClickSaveValorant _ _ _ _ => metadataContainer_shown (dom t)
  | ClickSaveKovaaks _ => metadataContainer_shown (dom t)
  | ClickCancel => metadataContainer_shown (dom t)
  | ClickDismiss => alarmNotification_shown (dom t)
  | Loaded _ => true
  end.

(** Running a sequence of events; an event the page does not allow is
    skipped. *)
Fixpoint run `{JsRuntime} (evs : list Event) (t : Tracker) : Result Tracker :=
  match evs with
  | [] => Ok t
  | e :: evs' =>
      if enabled e t then t' ← handle e t; run evs' t'
      else run evs' t
  end.

(** States the page can be in. *)
Inductive Reachable `{JsRuntime} : Tracker -> Prop :=
  | Reachable_initial stored selected :
      Reachable (initial stored selected)
  | Reachable_step t e t' :
      Reachable t -> enabled e t = true -> handle e t = Ok t' ->
      Reachable t'.

(** The interval firing [n] times, at [first], [first + period], ... *)
Fixpoint ticks (n : nat) (first period : Z) : list Event :=
  match n with
  | O => []
  | S n' => Tick first :: ticks n' (first + period) period
  end.

(** What holds of every state of the page: a running timer has a
    current session; while the metadata form is shown the timer is
    running, its interval is cancelled and the current session
    carries the rounded elapsed time. *)
Definition Inv (t : Tracker) : Prop :=
  (isRunning t = true -> is_Some (currentSession t))
  /\ (metadataContainer_shown (dom t) = true ->
      isRunning t = true
      /\ timerInterval t = false
      /\ exists cur,
           currentSession t = Some cur
           /\ durationMinutes cur
              = Some (Math_round_div (elapsedTime t) 60000)).

(** The tracker after the interval has fired at each of [nows]. *)
Definition after_ticks `{JsRuntime} (nows : list Z) (t : Tracker) : Tracker :=
  fold_left (fun t now => updateTimer now t) nows t.

(** The clock reading of the last tick, [t0] when there was none. *)
Definition last_reading (t0 : Z) (nows : list Z) : Z := default t0 (last nows).

(** Today's kovaaks minutes as a tick at clock reading [now] computes
    them, and whether they reach the threshold. *)
Definition total_at `{JsRuntime} (t : Tracker) (now : Z) : Z :=
  completedKovaaksMinutes (isoDateAt now) (sessions t)
  + Math_floor_div (now - startTime t) 60000.

Definition reached_at `{JsRuntime} (t : Tracker) (now : Z) : bool :=
  hourlyAlarmThreshold <=? total_at t now.

(** The events that complete a session. *)
Definition completes (e : Event) : Prop :=
  match e with
  | ClickSaveValorant _ _ _ _ | ClickSaveKovaaks _ | ClickCancel => True
  | _ => False
  end.


End Timer.

(* ===================================================================== *)
(** ** Reference quantities the properties are stated against *)
(* ===================================================================== *)

(** Sum of [durationMinutes] over a collection, a missing one counting 0. *)
Definition sum_durations (l : list Session) : Z :=
  foldr (fun s total => or_zero (durationMinutes s) + total) 0 l.

(** Minutes of the sessions of game [g]. *)
Definition game_minutes (g : string) (l : list Session) : Z :=
  sum_durations (filter (fun s => game s = g) l).

(** The sessions whose canonical date is [d]. *)
Definition on_date `{JsRuntime} (d : string) (l : list Session) : list Session :=
  filter (fun s => isoDateOf (date s) = Ok d) l.

(** A session of one of the two games the charts know. *)
Definition known_game (s : Session) : Prop :=
  game s = "valorant" \/ game s = "kovaaks".

#[global] Instance known_game_dec s : Decision (known_game s).
Proof. unfold known_game. apply _. Defined.

(** A session whose date the runtime can read. *)
Definition date_readable `{JsRuntime} (s : Session) : Prop :=
  is_Some (Date_parse (date s)).

(** The value of property [p] of a metadata value when reading it is
    guarded by [m && m.p]. *)
Definition meta_field {A} (m : Metadata) (p : MetaObj -> option A) : option A :=
  match m with
  | MetaObject o => p o
  | _ => None
  end.


(** The labels a valorant session contributes to the match-type breakdown
    and the label a kovaaks session contributes to the aim-type one. *)
Definition match_labels (s : Session) : list string :=
  if String.eqb (game s) "valorant" then
    match meta_field (metadata s) matchTypes with
    | Some entries => map fst entries
    | None => []
    end
  else [].

Definition aim_labels (s : Session) : list string :=
  if String.eqb (game s) "kovaaks" then
    match meta_field (metadata s) aimType with
    | Some a => if str_truthy a then [a] else []
    | None => []
    end
  else [].

(** The callback of [generateSummaryStats] when nothing throws. *)
Definition summary_next (acc : SummaryAcc) (session : Session) : SummaryAcc :=
  let minutes := or_zero (durationMinutes session) in
  {| acc_total := acc_total acc + minutes;
     acc_games := plus_assign (acc_games acc) (game session) minutes;
     acc_match :=
       if String.eqb (game session) "valorant" then
         match meta_field (metadata session) matchTypes with
         | Some entries => add_matchTypes (acc_match acc) entries
         | None => acc_match acc
         end
       else acc_match acc;
     acc_aim :=
       if String.eqb (game session) "kovaaks" then
         match meta_field (metadata session) aimType with
         | Some a => if str_truthy a then bump (acc_aim acc) a minutes
                     else acc_aim acc
         | None => acc_aim acc
         end
       else acc_aim acc |}.

(** [generateSummaryStats] in closed form. *)
Definition stats_of (n : nat) (acc : SummaryAcc) : Stats :=
  {| totalSessions := n;
     totalTimeMinutes := acc_total acc;
     avgSessionMinutes := js_div (acc_total acc) n;
     gameBreakdown := acc_games acc;
     valorantMatchTypes := acc_match acc;
     kovaaksAimTypes := acc_aim acc |}.

(** A stored row of one of the two known games. *)
Definition known_row (r : Row) : Prop :=
  row_game r = "valorant" \/ row_game r = "kovaaks".

#[global] Instance known_row_dec r : Decision (known_row r).
Proof. unfold known_row. apply _. Defined.

(** A bucket holding, for the two known games, the minutes of a list of
    sessions. *)
Definition bucket_of (b : gmap string jsnum) (l : list Session) : Prop :=
  b !! "valorant" = Some (Num (game_minutes "valorant" l))
  /\ b !! "kovaaks" = Some (Num (game_minutes "kovaaks" l)).

(** [dailyData] after the sessions of [l] have been visited. *)
Definition daily_of `{JsRuntime} (dailyData : gmap string (gmap string jsnum))
    (l : list Session) : Prop :=
  forall d,
    match dailyData !! d with
    | Some b => bucket_of b (on_date d l) /\ on_date d l <> []
    | None => on_date d l = []
    end.

(** The statements of the specification that the code does not meet as
    they are worded, kept to be tested on concrete inputs. *)

(** Dates ascending and, per date, the two chart values adding up to the
    minutes of all the sessions of that date. *)
Definition daily_totals_cover_all_sessions `{JsRuntime} (l : list Session) : Prop :=
  exists c,
    prepareDailyTrendData l = Ok c
    /\ StronglySorted str_lt (labels c)
    /\ forall i d, labels c !! i = Some d ->
         exists v k,
           valorant_data c !! i = Some (Some (Num v))
           /\ kovaaks_data c !! i = Some (Some (Num k))
           /\ v + k = sum_durations (on_date d l).

(** The stats handler and the client aggregator returning the same. *)
Definition server_mirrors_client `{JsRuntime} (rows : list Row) : Prop :=
  stats_endpoint rows = generateSummaryStats (map parsed_row rows).

(** The stop transition rounding the wall-clock time elapsed between the
    start at [t0] and the stop at [t1]. *)
Definition stop_rounds_wall_clock `{JsRuntime} (stored : list Session)
    (selected : string) (t0 : Z) (evs : list Timer.Event) (t1 : Z) : Prop :=
  exists t cur,
    Timer.run (Timer.ClickStart t0 :: evs ++ [Timer.ClickEnd t1])
      (Timer.initial stored selected) = Ok t
    /\ Timer.currentSession t = Some cur
    /\ durationMinutes cur = Some (Math_round_div (t1 - t0) 60000).

(** Every record the tracker appends having a duration that is present
    and not negative. *)
Definition appended_duration_nonnegative `{JsRuntime} (stored : list Session)
    (selected : string) (evs : list Timer.Event) : Prop :=
  exists t,
    Timer.run evs (Timer.initial stored selected) = Ok t
    /\ Forall (fun s => exists d, durationMinutes s = Some d /\ 0 <= d)
         (drop (length stored) (Timer.sessions t)).

(* ===================================================================== *)
(** ** Concrete inputs *)
(* ===================================================================== *)

Module Examples.

Definition session (g d : string) (minutes : option Z) (m : Metadata) : Session :=
  {| game := g; date := d; startTime := d +:+ "T10:00:00.000Z";
     endTime := Some (d +:+ "T11:00:00.000Z");
     durationMinutes := minutes; metadata := m |}.

Definition row (n : Z) (g d : string) (minutes : option Z) (m : option string) : Row :=
  {| row_id := n; row_game := g; row_date := d;
     row_startTime := d +:+ "T10:00:00.000Z";
     row_endTime := Some (d +:+ "T11:00:00.000Z");
     row_durationMinutes := minutes; row_metadata := m |}.

Definition competitive2 : Metadata :=
  MetaObject {| matchTypes := Some [("competitive", 2)]; aimType := None |}.

Definition static_clicking : Metadata :=
  MetaObject {| matchTypes := None; aimType := Some "static-clicking" |}.

(** The two sessions of the specification's scenario. *)
Definition scenario : list Session :=
  [ session "valorant" "2024-01-01" (Some 30) competitive2;
    session "kovaaks" "2024-01-01" (Some 45) static_clicking ].

(** A session of a game the charts do not know. *)
Definition apex : list Session :=
  [ session "apex" "2024-01-01" (Some 10) MetaAbsent ].

Definition apex_rows : list Row :=
  [ row 1 "apex" "2024-01-01" (Some 10) None ].

(** A session whose date is not a date. *)
Definition undated : list Session :=
  [ session "valorant" "yesterday" (Some 10) MetaAbsent ].

Definition known_rows : list Row :=
  [ row 1 "valorant" "2024-01-01" (Some 30) None;
    row 2 "kovaaks" "2024-01-01" None (Some "{}");
    row 3 "kovaaks" "2024-01-02" (Some 45) (Some "{oops") ].

(** Start at 0, the interval firing 29 times, 4 ms late each time, and
    the end button clicked 30 002 ms after the start. *)
Definition jitter_trace : list Timer.Event := Timer.ticks 29 1004 1000.

(** The clock readings of [n] ticks that run exactly on time after a
    start at 0: 1000, 2000, ... *)
Definition on_time (n : nat) : list Z :=
  map (fun k => 1000 * Z.of_nat k) (seq 1 n).

(** Start at 1 000 000; the clock is then set back, the next tick reads
    880 000; then end and skip the form. *)
Definition skewed_trace : list Timer.Event :=
  [ Timer.ClickStart 1000000; Timer.Tick 880000; Timer.ClickEnd 880500;
    Timer.ClickCancel ].

Definition running_kovaaks `{JsRuntime} : Timer.Tracker :=
  Timer.startTimer 0 (Timer.initial [] "kovaaks").

(** Started at 0, one tick at 90 500 ms, the end button clicked. *)
Definition awaiting `{JsRuntime} : Timer.Tracker :=
  match Timer.run [Timer.ClickStart 0; Timer.Tick 90500; Timer.ClickEnd 90600]
          (Timer.initial [] "kovaaks") with
  | Ok t => t
  | Throw _ => Timer.initial [] "kovaaks"
  end.

End Examples.

(* ===================================================================== *)
(** * Second part: definitions *)
(* ===================================================================== *)

(* ===================================================================== *)
(** ** [server.js]: the name given to an uploaded file *)
(* ===================================================================== *)

(** [s.split(sep)] for a one-character separator: the pieces of [s]
    between the separators, at least one piece. *)
Fixpoint split_on (sep : ascii) (s : string) : list string :=
  match s with
  | EmptyString => [EmptyString]
  | String c s' =>
      if Ascii.eqb c sep then EmptyString :: split_on sep s'
      else
        match split_on sep s' with
        | piece :: pieces => String c piece :: pieces
        | [] => [String c EmptyString]
        end
  end.

(** [pieces.join(sep)] *)
Fixpoint join_with (sep : ascii) (pieces : list string) : string :=
  match pieces with
  | [] => EmptyString
  | [piece] => piece
  | piece :: pieces' => piece +:+ String sep (join_with sep pieces')
  end.

(** [pieces.pop()]: the last piece, [undefined] on an empty array. *)
Definition pop (pieces : list string) : option string := last pieces.

(** The [filename] callback of the upload storage:
    [file.originalname.split('/').pop()]. *)
Definition upload_filename (originalname : string) : option string :=
  pop (split_on "/" originalname).

(** Whether a character occurs in a string. *)
Fixpoint has_char (c : ascii) (s : string) : bool :=
  match s with
  | EmptyString => false
  | String c' s' => Ascii.eqb c' c || has_char c s'
  end.

(* ===================================================================== *)
(** ** [server.js]: [/api/sessions/save] *)
(* ===================================================================== *)

(** [JSON.stringify] on a metadata value. *)
Class JsonWriter := {
  JSON_stringify : Metadata -> string
}.








(** A date the load handler cannot normalise: not empty, not of the form
    [YYYY-MM-DD], and an Invalid Date for the runtime. *)
Definition unreadable_date `{JsRuntime} (d : string) : bool :=
  str_truthy d && negb (matches_ymd d) && bool_decide (Date_parse d = None).


(* ===================================================================== *)
(** ** [SQLiteHandler.loadFromDatabase]: the pass as a function *)
(* ===================================================================== *)

(** The [sessions.forEach] of [loadFromDatabase] on the records of the
    response, in order; an exception rejects the promise. *)
Definition loadFromDatabase_pass `{JsRuntime} (sessions : list Session)
  : Result (list Session) :=
  mapM client_load_step sessions.

(** A date the client pass cannot normalise. *)
Definition client_unreadable `{JsRuntime} (s : Session) : bool :=
  unreadable_date (date s).

(* ===================================================================== *)
(** ** [ExcelHandler.generateSummaryStats] *)
(* ===================================================================== *)

Module Excel.

Record Stats := {
  totalSessions : nat;
  totalTimeMinutes : Z;
  avgSessionMinutes : Q;
  gameBreakdown : gmap string jsnum
}.

(** Body of the [sessions.forEach]. *)
Definition step (acc : Z * gmap string jsnum) (session : Session)
  : Z * gmap string jsnum :=
  let durationMinutes := or_zero (durationMinutes session) in
  (fst acc + durationMinutes,
   plus_assign (snd acc) (game session) durationMinutes).

Definition generateSummaryStats (sessions : list Session) : Stats :=
  if Nat.eqb (length sessions) 0 then
    {| totalSessions := 0; totalTimeMinutes := 0; avgSessionMinutes := 0%Q;
       gameBreakdown := zeroGames |}
  else
    let acc := fold_left step sessions (0, zeroGames) in
    {| totalSessions := length sessions;
       totalTimeMinutes := fst acc;
       avgSessionMinutes := js_div (fst acc) (length sessions);
       gameBreakdown := snd acc |}.

End Excel.

(* ===================================================================== *)
(** ** The displays: [updateTimerDisplay] and the hours and minutes of
       [updateStatsDisplay] *)
(* ===================================================================== *)

(** [n.toString()] for an integer. *)
Definition Number_toString (n : Z) : string := NilZero.string_of_int (Z.to_int n).

(** [String(c).repeat(n)] *)
Fixpoint repeat_char (n : nat) (c : ascii) : string :=
  match n with
  | O => EmptyString
  | S n' => String c (repeat_char n' c)
  end.

(** [s.padStart(width, c)] *)
Definition padStart (width : nat) (c : ascii) (s : string) : string :=
  repeat_char (width - String.length s) c +:+ s.

(** [a % b] *)
Definition js_rem (a b : Z) : Z := Z.rem a b.

Record TimerDisplay := {
  hours_number : Z;
  minutes_number : Z;
  seconds_number : Z;
  hours_text : string;
  minutes_text : string;
  seconds_text : string
}.

(** [updateTimerDisplay()] for [this.elapsedTime = elapsed]: the three
    numbers it computes and the texts it writes into the page. *)
Definition updateTimerDisplay (elapsed : Z) : TimerDisplay :=
  let totalSeconds := Math_floor_div elapsed 1000 in
  let hours := Math_floor_div totalSeconds 3600 in
  let minutes := Math_floor_div (js_rem totalSeconds 3600) 60 in
  let seconds := js_rem totalSeconds 60 in
  {| hours_number := hours;
     minutes_number := minutes;
     seconds_number := seconds;
     hours_text := padStart 2 "0" (Number_toString hours);
     minutes_text := padStart 2 "0" (Number_toString minutes);
     seconds_text := padStart 2 "0" (Number_toString seconds) |}.

(** The number a text of digits reads as. *)
Definition read_number (s : string) : option Z :=
  Z.of_int <$> NilZero.int_of_string s.

(** [Math.floor(n / 60)] and [n % 60], the hours and minutes
    [updateStatsDisplay] shows for [n] minutes. *)
Definition hours_minutes (n : Z) : Z * Z :=
  (Math_floor_div n 60, js_rem n 60).

(* ===================================================================== *)
(** ** [GameTimeTracker.updateTodayStats]: the sessions of today *)
(* ===================================================================== *)

(** The callback of [this.sessions.filter(...)]: whether the session is
    dated [today]; a date of the form [YYYY-MM-DD] is compared as it is,
    any other string goes through [Date] first. *)
Definition is_today `{JsRuntime} (today : string) (session : Session)
  : Result bool :=
  sessionDate ← (if matches_ymd (date session) then Ok (date session)
                 else isoDateOf (date session));
  Ok (String.eqb sessionDate today).

(** [this.sessions.filter(callback)] for a callback that can throw. *)
Fixpoint filterR {A} (f : A -> Result bool) (l : list A) : Result (list A) :=
  match l with
  | [] => Ok []
  | x :: l' =>
      keep ← f x;
      rest ← filterR f l';
      Ok (if keep : bool then x :: rest else rest)
  end.

(** [todaySessions] of [updateTodayStats()] at clock reading [now]. *)
Definition todaySessions `{JsRuntime} (now : Z) (sessions : list Session)
  : Result (list Session) :=
  filterR (is_today (isoDateAt now)) sessions.

(* ===================================================================== *)
(** ** [GameTimeTracker]: saving and loading the collection *)
(* ===================================================================== *)

(** The collection in memory and the one kept in local storage
    ([None] when the key is not there); local storage is taken to give
    back the array that was written to it. *)
Record Collections := {
  in_memory : list Session;
  in_localStorage : option (list Session)
}.

(** How a load from the database ends. *)
Inductive LoadOutcome :=
  | Resolved (loaded : list Session)
  | Rejected.


(** [loadFromDatabase()] of the tracker once the promise settles. *)
Definition loadFromDatabase_settled (o : LoadOutcome) (c : Collections)
  : Collections :=
  match o with
  | Resolved loaded =>
      {| in_memory := loaded; in_localStorage := Some loaded |}
  | Rejected => c
  end.



(* ===================================================================== *)
(** ** [start-app.js]: waiting for the server *)
(* ===================================================================== *)

Definition maxAttempts : nat := 10.

(** The [while] loop of [waitForServer()]: [probe n] is the answer of the
    [checkServer()] made after [n] failed attempts, [left] the attempts
    still allowed.  The result is [isReady] and [attempts]. *)
Fixpoint wait_loop (probe : nat -> bool) (left attempts : nat) : bool * nat :=
  match left with
  | O => (false, attempts)
  | S left' =>
      if probe attempts then (true, attempts)
      else wait_loop probe left' (S attempts)
  end.

Definition waitForServer (probe : nat -> bool) : bool * nat :=
  wait_loop probe maxAttempts 0.

(* ===================================================================== *)
(** ** Further reference quantities *)
(* ===================================================================== *)

(** The count a session carries for match-type label [k]. *)
Definition label_count (k : string) (s : Session) : Z :=
  if String.eqb (game s) "valorant" then
    match meta_field (metadata s) matchTypes with
    | Some entries =>
        foldr (fun e total => (if decide (fst e = k) then snd e else 0) + total)
              0 entries
    | None => 0
    end
  else 0.

(** The minutes a session carries for aim type [k]. *)
Definition aim_minutes (k : string) (s : Session) : Z :=
  if bool_decide (k ∈ aim_labels s) then or_zero (durationMinutes s) else 0.

(** Sum of a quantity over a collection. *)
Definition sum_over (f : Session -> Z) (l : list Session) : Z :=
  foldr (fun s total => f s + total) 0 l.

(** An entry of a breakdown when its key is one of [labels s] for some
    [s] of the collection: the sum over the collection; no entry
    otherwise. *)
Definition breakdown_entry (labels : Session -> list string)
    (amount : Session -> Z) (k : string) (l : list Session) : option Z :=
  if bool_decide (Exists (fun s => k ∈ labels s) l)
  then Some (sum_over amount l)
  else None.

(** What the summary holds for game [g]: the minutes of the game for the
    two known games; for another game [NaN] when the collection has a
    session of it and nothing otherwise. *)
Definition game_entry (g : string) (l : list Session) : option jsnum :=
  if bool_decide (g = "valorant" \/ g = "kovaaks")
  then Some (Num (game_minutes g l))
  else if bool_decide (Exists (fun s => game s = g) l) then Some NaN
       else None.

(** Sum of the numbers of a chart row. *)
Definition data_sum (row : list (option jsnum)) : Z :=
  foldr (fun x total =>
           match x with
           | Some (Num z) => z + total
           | _ => total
           end) 0 row.

(** The [gameBreakdown] object the summary builds for a collection. *)
Definition games_of (l : list Session) : gmap string jsnum :=
  fold_left (fun b s => plus_assign b (game s) (or_zero (durationMinutes s)))
            l zeroGames.

(** The number [YYYYMMDD] of a date [YYYY-MM-DD]. *)
Definition ymd_key (s : string) : Z :=
  match map RefClock.digit_val (list_ascii_of_string s) with
  | [y1; y2; y3; y4; _; m1; m2; _; d1; d2] =>
      10000000 * y1 + 1000000 * y2 + 100000 * y3 + 10000 * y4
      + 1000 * m1 + 100 * m2 + 10 * d1 + d2
  | _ => 0
  end.

(** A date the load handlers keep as it is: empty, or of the form
    [YYYY-MM-DD]. *)
Definition canonical_date (d : string) : bool :=
  negb (str_truthy d) || matches_ymd d.


(** The metadata of a session is not a string the client would parse. *)
Definition parsed_metadata (s : Session) : Prop :=
  forall text, metadata s = MetaText text -> str_truthy text = false.

(* ===================================================================== *)
(** ** A small JSON writer *)
(* ===================================================================== *)

Module RefJson.

(** A string between double quotes; the characters are written as they
    are, which is what [JSON.stringify] does for characters that need no
    escape. *)
Definition quoted (s : string) : string :=
  String RefClock.dquote s +:+ String RefClock.dquote EmptyString.

Definition property (name value : string) : string :=
  quoted name +:+ ":" +:+ value.

Fixpoint joined (pieces : list string) : string :=
  match pieces with
  | [] => EmptyString
  | [piece] => piece
  | piece :: pieces' => piece +:+ "," +:+ joined pieces'
  end.

Definition braces (properties : list string) : string :=
  "{" +:+ joined properties +:+ "}".

(** The properties a metadata object is written with: [matchTypes] with
    its counts, then [aimType]; a property that is absent is left out. *)
Definition object_properties (o : MetaObj) : list string :=
  match matchTypes o with
  | Some entries =>
      [property "matchTypes"
         (braces (map (fun e => property (fst e) (Number_toString (snd e)))
                      entries))]
  | None => []
  end ++
  match aimType o with
  | Some a => [property "aimType" (quoted a)]
  | None => []
  end.

Definition JSON_stringify (m : Metadata) : string :=
  match m with
  | MetaAbsent => "null"
  | MetaText s => quoted s
  | MetaObject o => braces (object_properties o)
  end.

#[global] Instance writer : JsonWriter := Build_JsonWriter JSON_stringify.

End RefJson.

(** The bucket of a date: absent when no session has the date, else the
    game map of the sessions of that date. *)
Definition bucket_on (x : list Session) : option (gmap string jsnum) :=
  match x with
  | [] => None
  | _ => Some (games_of x)
  end.

(** The dictionary [dailyData] holds exactly the buckets of the dates of
    the sessions of [l]. *)
Definition daily_exact `{JsRuntime} (dailyData : gmap string (gmap string jsnum))
    (l : list Session) : Prop :=
  forall d, dailyData !! d = bucket_on (on_date d l).

(** The controls follow the timer: the start button and the game
    selector are disabled exactly while the timer is running and the end
    button exactly while it is not; the interval is scheduled exactly
    while the timer runs and the metadata form is not shown; a timer that
    is not running shows no elapsed time. *)
Definition Controls (t : Timer.Tracker) : Prop :=
  Timer.startButton_disabled (Timer.dom t) = Timer.isRunning t
  /\ Timer.endButton_disabled (Timer.dom t) = negb (Timer.isRunning t)
  /\ Timer.gameSelect_disabled (Timer.dom t) = Timer.isRunning t
  /\ Timer.timerInterval t
     = Timer.isRunning t && negb (Timer.metadataContainer_shown (Timer.dom t))
  /\ (Timer.isRunning t = false -> Timer.elapsedTime t = 0).

(** The [startTime] property of a session record. *)
Definition session_startTime (s : Session) : string := startTime s.

(** The metadata a completing event leaves on the session: the four
    counts, the aim type, or the [{}] the session started with. *)
Definition entered_metadata (e : Timer.Event) : Metadata :=
  match e with
  | Timer.ClickSaveValorant deathmatch competitive unrated spikeRush =>
      MetaObject
        {| matchTypes :=
             Some [ ("deathmatch", or_zero deathmatch);
                    ("competitive", or_zero competitive);
                    ("unrated", or_zero unrated);
                    ("spikeRush", or_zero spikeRush) ];
           aimType := None |}
  | Timer.ClickSaveKovaaks a =>
      MetaObject {| matchTypes := None; aimType := Some a |}
  | _ => MetaObject emptyObj
  end.

(** Sessions and a database to save them into. *)
Module Stored.

Definition two_days : list Session :=
  [ Examples.session "kovaaks" "2024-01-01" (Some 45) Examples.static_clicking;
    Examples.session "valorant" "2024-01-02" (Some 30) MetaAbsent ].


(** A page opened on a day that already has an hour of kovaaks. *)
Definition after_an_hour : Timer.Tracker :=
  Timer.initial
    [ Examples.session "kovaaks" "2024-01-02" (Some 60)
        Examples.static_clicking ]
    "kovaaks".

(** A server that answers from the fourth probe on. *)
Definition slow_server (k : nat) : bool := Nat.leb 3 k.


End Stored.

(* ===================================================================== *)
(** ** The order on strings *)
(* ===================================================================== *)

Lemma ascii_compare_refl c : Ascii.compare c c = Eq.
Proof. unfold Ascii.compare. apply N.compare_refl. Qed.

Lemma ascii_compare_lt_trans a b c :
  Ascii.compare a b = Lt -> Ascii.compare b c = Lt -> Ascii.compare a c = Lt.
Proof.
  unfold Ascii.compare. rewrite !N.compare_lt_iff. apply N.lt_trans.
Qed.

Lemma string_compare_refl s : String.compare s s = Eq.
Proof.
  induction s as [|c s IH]; simpl; [done|].
  by rewrite ascii_compare_refl.
Qed.

Lemma string_compare_lt_trans s1 : forall s2 s3,
  String.compare s1 s2 = Lt -> String.compare s2 s3 = Lt ->
  String.compare s1 s3 = Lt.
Proof.
  induction s1 as [|a s1 IH]; intros [|b s2] [|c s3]; simpl; try done.
  destruct (Ascii.compare a b) eqn:Hab; try done;
    destruct (Ascii.compare b c) eqn:Hbc; try done; intros H12 H23.
  - apply Ascii.compare_eq_iff in Hab, Hbc. subst.
    rewrite ascii_compare_refl. eauto.
  - apply Ascii.compare_eq_iff in Hab. subst. by rewrite Hbc.
  - apply Ascii.compare_eq_iff in Hbc. subst. by rewrite Hab.
  - by rewrite (ascii_compare_lt_trans _ _ _ Hab Hbc).
Qed.

Lemma str_le_lt_eq s1 s2 : str_le s1 s2 <-> str_lt s1 s2 \/ s1 = s2.
Proof.
  unfold str_le, str_lt, String.leb, String.ltb.
  destruct (String.compare s1 s2) eqn:Hc; split; try done; try tauto.
  - intros _. right. by apply String.compare_eq_iff.
  - intros [?| ->]; [done|]. by rewrite string_compare_refl in Hc.
Qed.

Lemma str_lt_irrefl s : ~ str_lt s s.
Proof. unfold str_lt, String.ltb. by rewrite string_compare_refl. Qed.

#[global] Instance str_lt_trans : Transitive str_lt.
Proof.
  intros s1 s2 s3. unfold str_lt, String.ltb.
  destruct (String.compare s1 s2) eqn:H12; try done.
  destruct (String.compare s2 s3) eqn:H23; try done.
  by rewrite (string_compare_lt_trans _ _ _ H12 H23).
Qed.

#[global] Instance str_le_trans : Transitive str_le.
Proof.
  intros s1 s2 s3. rewrite !str_le_lt_eq.
  intros [H12| ->] [H23| ->]; eauto.
  left. by transitivity s2.
Qed.

#[global] Instance str_le_total : Total str_le.
Proof. intros s1 s2. apply String.leb_total. Qed.

#[global] Instance str_le_antisym : AntiSymm (=) str_le.
Proof. intros s1 s2. apply String.leb_antisym. Qed.

(** A list sorted for [<=] and without repetition is strictly ascending. *)
Lemma sorted_nodup_strict (l : list string) :
  Sorted str_le l -> NoDup l -> StronglySorted str_lt l.
Proof.
  intros Hs Hn. apply Sorted_StronglySorted in Hs; [|apply _].
  induction Hs as [|x l Hl IH Hx]; [constructor|].
  apply NoDup_cons in Hn as [Hx' Hn].
  constructor; [by apply IH|].
  apply Forall_forall. intros y Hy.
  rewrite Forall_forall in Hx. specialize (Hx y Hy).
  apply str_le_lt_eq in Hx as [?| ->]; [done|].
  exfalso. apply Hx'. by apply list_elem_of_In.
Qed.

Lemma sorted_keys_strict {V} (obj : gmap string V) :
  StronglySorted str_lt (sorted_keys obj).
Proof.
  unfold sorted_keys. apply sorted_nodup_strict.
  - apply Sorted_merge_sort. apply _.
  - rewrite merge_sort_Permutation. apply NoDup_fst_map_to_list.
Qed.

(** The outcome of the sort does not depend on the order in which the
    keys are enumerated: a sorted arrangement of the keys is unique. *)
Lemma sorted_keys_unique {V} (obj : gmap string V) (l : list string) :
  Sorted str_le l -> l ≡ₚ map fst (map_to_list obj) -> l = sorted_keys obj.
Proof.
  intros Hs Hp. apply (Sorted_unique str_le); [done| |].
  - apply Sorted_merge_sort. apply _.
  - unfold sorted_keys. by rewrite merge_sort_Permutation.
Qed.

Lemma elem_of_sorted_keys {V} (obj : gmap string V) k :
  k ∈ sorted_keys obj <-> is_Some (obj !! k).
Proof.
  unfold sorted_keys. rewrite merge_sort_Permutation.
  rewrite list_elem_of_fmap. split.
  - intros [[k' v] [-> Hin]]. apply elem_of_map_to_list in Hin. eauto.
  - intros [v Hv]. exists (k, v). split; [done|]. by apply elem_of_map_to_list.
Qed.

(* ===================================================================== *)
(** ** The summary callback never throws *)
(* ===================================================================== *)

Lemma and_member_ok {A} (m : Metadata) (p : MetaObj -> option A) :
  and_member m p = Ok (meta_field m p).
Proof.
  unfold and_member. destruct m as [|s|o]; simpl; [done| |done].
  by destruct (str_truthy s).
Qed.

Lemma summary_step_ok acc s : summary_step acc s = Ok (summary_next acc s).
Proof.
  unfold summary_step, summary_next, match_branch, aim_branch.
  rewrite !and_member_ok.
  destruct (String.eqb (game s) "valorant"), (String.eqb (game s) "kovaaks");
    simpl; repeat case_match; done.
Qed.

Lemma forEachR_total {A T} (f : T -> A -> Result T) (g : T -> A -> T) l :
  (forall acc x, f acc x = Ok (g acc x)) ->
  forall acc, forEachR f acc l = Ok (fold_left g l acc).
Proof.
  intros Hfg. induction l as [|x l IH]; intros acc; simpl; [done|].
  rewrite Hfg. simpl. apply IH.
Qed.

Lemma forEachR_summary l acc :
  forEachR summary_step acc l = Ok (fold_left summary_next l acc).
Proof. apply forEachR_total, summary_step_ok. Qed.


Lemma generateSummaryStats_eq l :
  generateSummaryStats l =
  Ok (match l with
      | [] => zeroStats
      | _ => stats_of (length l) (fold_left summary_next l summary_init)
      end).
Proof.
  unfold generateSummaryStats. destruct l as [|s l]; [done|].
  change (Nat.eqb (length (s :: l)) 0) with false. cbv iota.
  by rewrite forEachR_summary.
Qed.

(** The fields of the result, the empty collection included. *)
Lemma generateSummaryStats_fields l :
  exists st,
    generateSummaryStats l = Ok st
    /\ totalSessions st = length l
    /\ totalTimeMinutes st = acc_total (fold_left summary_next l summary_init)
    /\ gameBreakdown st = acc_games (fold_left summary_next l summary_init)
    /\ valorantMatchTypes st = acc_match (fold_left summary_next l summary_init)
    /\ kovaaksAimTypes st = acc_aim (fold_left summary_next l summary_init).
Proof.
  rewrite generateSummaryStats_eq. eexists. split; [done|].
  by destruct l.
Qed.

(* ===================================================================== *)
(** ** What the fold computes, field by field *)
(* ===================================================================== *)

Lemma sum_durations_app l1 l2 :
  sum_durations (l1 ++ l2) = sum_durations l1 + sum_durations l2.
Proof.
  unfold sum_durations. induction l1 as [|s l1 IH]; simpl; lia.
Qed.

Lemma fold_total l : forall acc,
  acc_total (fold_left summary_next l acc) = acc_total acc + sum_durations l.
Proof.
  induction l as [|s l IH]; intros acc; simpl; [lia|].
  rewrite IH. simpl. unfold sum_durations. lia.
Qed.

Lemma game_minutes_nil g : game_minutes g [] = 0.
Proof. done. Qed.

Lemma game_minutes_cons g s l :
  game_minutes g (s :: l) =
  (if decide (game s = g) then or_zero (durationMinutes s) else 0)
  + game_minutes g l.
Proof.
  unfold game_minutes. rewrite filter_cons.
  destruct (decide (game s = g)); simpl; lia.
Qed.

(** An entry that holds a number keeps holding the running sum. *)
Lemma fold_games_num g l : forall acc a,
  acc_games acc !! g = Some (Num a) ->
  acc_games (fold_left summary_next l acc) !! g
  = Some (Num (a + game_minutes g l)).
Proof.
  induction l as [|s l IH]; intros acc a Ha; simpl.
  - by rewrite Ha, game_minutes_nil, Z.add_0_r.
  - rewrite game_minutes_cons.
    destruct (decide (game s = g)) as [Hg|Hg].
    + rewrite (IH _ (a + or_zero (durationMinutes s))).
      * by rewrite Z.add_assoc.
      * simpl. unfold plus_assign. by rewrite Hg, lookup_insert_eq, Ha.
    + rewrite (IH _ a).
      * by rewrite Z.add_0_l.
      * simpl. unfold plus_assign. by rewrite lookup_insert_ne.
Qed.

(** A key that is not a game of the collection is never created. *)
Lemma fold_games_none g l : forall acc,
  acc_games acc !! g = None ->
  Forall (fun s => game s <> g) l ->
  acc_games (fold_left summary_next l acc) !! g = None.
Proof.
  induction l as [|s l IH]; intros acc Ha Hl; simpl; [done|].
  apply Forall_cons in Hl as [Hs Hl].
  apply IH; [|done]. simpl. unfold plus_assign. by rewrite lookup_insert_ne.
Qed.

Lemma zeroGames_valorant : zeroGames !! "valorant" = Some (Num 0).
Proof. done. Qed.

Lemma zeroGames_kovaaks : zeroGames !! "kovaaks" = Some (Num 0).
Proof. done. Qed.

Lemma zeroGames_other g :
  g <> "valorant" -> g <> "kovaaks" -> zeroGames !! g = None.
Proof.
  intros H1 H2. unfold zeroGames.
  rewrite lookup_insert_ne by done. rewrite lookup_insert_ne by done. done.
Qed.



Lemma dom_bump m k n : dom (bump m k n) = {[k]} ∪ dom m.
Proof. unfold bump. apply dom_insert_L. Qed.

Lemma elem_of_dom_add_matchTypes entries : forall vm k,
  k ∈ dom (add_matchTypes vm entries) <-> k ∈ dom vm \/ k ∈ map fst entries.
Proof.
  unfold add_matchTypes.
  induction entries as [|[label n] entries IH]; intros vm k; simpl.
  - rewrite elem_of_nil. tauto.
  - rewrite IH, dom_bump, elem_of_cons, elem_of_union, elem_of_singleton.
    tauto.
Qed.

Lemma elem_of_dom_match l : forall acc k,
  k ∈ dom (acc_match (fold_left summary_next l acc))
  <-> k ∈ dom (acc_match acc) \/ exists s, s ∈ l /\ k ∈ match_labels s.
Proof.
  induction l as [|s l IH]; intros acc k; simpl.
  - split; [tauto|]. intros [?|(s & Hs & _)]; [done|]. by apply elem_of_nil in Hs.
  - rewrite IH. simpl.
    assert (k ∈ dom (if String.eqb (game s) "valorant"
                     then match meta_field (metadata s) matchTypes with
                          | Some entries => add_matchTypes (acc_match acc) entries
                          | None => acc_match acc
                          end
                     else acc_match acc)
            <-> k ∈ dom (acc_match acc) \/ k ∈ match_labels s) as ->.
    { unfold match_labels. destruct (String.eqb (game s) "valorant").
      - destruct (meta_field (metadata s) matchTypes).
        + apply elem_of_dom_add_matchTypes.
        + rewrite elem_of_nil. tauto.
      - rewrite elem_of_nil. tauto. }
    split.
    + intros [[?|?]|(s' & ? & ?)]; eauto.
      * right. exists s. split; [left|done].
      * right. exists s'. split; [by right|done].
    + intros [?|(s' & Hin & ?)]; [tauto|].
      apply elem_of_cons in Hin as [->|?]; eauto.
Qed.

Lemma elem_of_dom_aim l : forall acc k,
  k ∈ dom (acc_aim (fold_left summary_next l acc))
  <-> k ∈ dom (acc_aim acc) \/ exists s, s ∈ l /\ k ∈ aim_labels s.
Proof.
  induction l as [|s l IH]; intros acc k; simpl.
  - split; [tauto|]. intros [?|(s & Hs & _)]; [done|]. by apply elem_of_nil in Hs.
  - rewrite IH. simpl.
    assert (k ∈ dom (if String.eqb (game s) "kovaaks"
                     then match meta_field (metadata s) aimType with
                          | Some a =>
                              if str_truthy a
                              then bump (acc_aim acc) a (or_zero (durationMinutes s))
                              else acc_aim acc
                          | None => acc_aim acc
                          end
                     else acc_aim acc)
            <-> k ∈ dom (acc_aim acc) \/ k ∈ aim_labels s) as ->.
    { unfold aim_labels. destruct (String.eqb (game s) "kovaaks").
      - destruct (meta_field (metadata s) aimType) as [a|].
        + destruct (str_truthy a).
          * rewrite dom_bump, elem_of_union, elem_of_singleton,
              list_elem_of_singleton. tauto.
          * rewrite elem_of_nil. tauto.
        + rewrite elem_of_nil. tauto.
      - rewrite elem_of_nil. tauto. }
    split.
    + intros [[?|?]|(s' & ? & ?)]; eauto.
      * right. exists s. split; [left|done].
      * right. exists s'. split; [by right|done].
    + intros [?|(s' & Hin & ?)]; [tauto|].
      apply elem_of_cons in Hin as [->|?]; eauto.
Qed.

(* ===================================================================== *)
(** ** The stats handler against the client aggregator *)
(* ===================================================================== *)

Lemma sql_sum_or_zero (xs : list (option Z)) :
  or_zero (sql_sum xs) = foldr (fun x total => or_zero x + total) 0 xs.
Proof.
  unfold sql_sum.
  assert (foldr Z.add 0 (omap id xs)
          = foldr (fun x total => or_zero x + total) 0 xs) as <-.
  { induction xs as [|[x|] xs IH]; simpl; [done| |]; rewrite <- IH; done. }
  by destruct (omap id xs).
Qed.

Section ServerSums.
Context `{RT : JsRuntime}.

Lemma sum_rows_durations (rows : list Row) :
  or_zero (sql_sum (map row_durationMinutes rows))
  = sum_durations (map parsed_row rows).
Proof.
  rewrite sql_sum_or_zero. unfold sum_durations.
  induction rows as [|r rows IH]; simpl; [done|]. by rewrite IH.
Qed.

Lemma filter_parsed_rows g (rows : list Row) :
  map parsed_row (filter (fun r => row_game r = g) rows)
  = filter (fun s => game s = g) (map parsed_row rows).
Proof.
  induction rows as [|r rows IH]; [done|].
  rewrite filter_cons. simpl. rewrite filter_cons. simpl.
  destruct (decide (row_game r = g)); simpl; by rewrite IH.
Qed.

Lemma sum_where_game_minutes g (rows : list Row) :
  or_zero (sum_where_game g rows) = game_minutes g (map parsed_row rows).
Proof.
  unfold sum_where_game, game_minutes.
  by rewrite sum_rows_durations, filter_parsed_rows.
Qed.

End ServerSums.

Lemma server_step_ok acc s :
  server_step (acc_match acc, acc_aim acc) s
  = Ok (acc_match (summary_next acc s), acc_aim (summary_next acc s)).
Proof.
  unfold server_step, summary_next, match_branch, aim_branch, plus_nullable.
  rewrite !and_member_ok. simpl.
  destruct (String.eqb (game s) "valorant"), (String.eqb (game s) "kovaaks");
    simpl; repeat case_match; done.
Qed.

Lemma forEachR_server l : forall acc,
  forEachR server_step (acc_match acc, acc_aim acc) l
  = Ok (acc_match (fold_left summary_next l acc),
        acc_aim (fold_left summary_next l acc)).
Proof.
  induction l as [|s l IH]; intros acc; simpl; [done|].
  rewrite server_step_ok. simpl. apply (IH (summary_next acc s)).
Qed.

(** With sessions of the two known games only, the client's game map has
    exactly the two entries the server builds. *)
Lemma fold_games_known (l : list Session) :
  Forall known_game l ->
  acc_games (fold_left summary_next l summary_init)
  = <["valorant" := Num (game_minutes "valorant" l)]>
      (<["kovaaks" := Num (game_minutes "kovaaks" l)]> ∅).
Proof.
  intros Hk. apply map_eq. intros g.
  destruct (decide (g = "valorant")) as [->|Hv].
  { rewrite lookup_insert_eq.
    rewrite (fold_games_num _ _ _ 0) by done. by rewrite Z.add_0_l. }
  rewrite lookup_insert_ne by done.
  destruct (decide (g = "kovaaks")) as [->|Hkv].
  { rewrite lookup_insert_eq.
    rewrite (fold_games_num _ _ _ 0) by done. by rewrite Z.add_0_l. }
  rewrite lookup_insert_ne by done. rewrite lookup_empty.
  apply fold_games_none.
  - by apply zeroGames_other.
  - eapply Forall_impl; [exact Hk|]. intros s [Hs|Hs] Hg; congruence.
Qed.

Lemma zeroGames_eq :
  zeroGames = <["valorant" := Num 0]> (<["kovaaks" := Num 0]> ∅).
Proof. done. Qed.

(* ===================================================================== *)
(** ** Properties of [generateSummaryStats] *)
(* ===================================================================== *)


Lemma game_minutes_none g (l : list Session) :
  Forall (fun s => game s <> g) l -> game_minutes g l = 0.
Proof.
  induction 1 as [|s l Hs Hl IH]; [done|].
  rewrite game_minutes_cons, IH. by destruct (decide (game s = g)).
Qed.

(** C4.  The [gameBreakdown] of the result always has the entries
    [valorant] and [kovaaks], holding the minutes of that game and so 0
    when the collection has no session of it; a key is in
    [valorantMatchTypes] or in [kovaaksAimTypes] exactly when the metadata
    of some session of that game carries it. *)
Theorem breakdown_zero_filled_or_sparse (sessions : list Session) :
  exists st,
    generateSummaryStats sessions = Ok st
    /\ gameBreakdown st !! "valorant"
       = Some (Num (game_minutes "valorant" sessions))
    /\ gameBreakdown st !! "kovaaks"
       = Some (Num (game_minutes "kovaaks" sessions))
    /\ (Forall (fun s => game s <> "valorant") sessions ->
        gameBreakdown st !! "valorant" = Some (Num 0))
    /\ (Forall (fun s => game s <> "kovaaks") sessions ->
        gameBreakdown st !! "kovaaks" = Some (Num 0))
    /\ (forall k, is_Some (valorantMatchTypes st !! k)
                  <-> exists s, s ∈ sessions /\ k ∈ match_labels s)
    /\ (forall k, is_Some (kovaaksAimTypes st !! k)
                  <-> exists s, s ∈ sessions /\ k ∈ aim_labels s).
Proof.
  destruct (generateSummaryStats_fields sessions)
    as (st & Hst & _ & _ & Hg & Hm & Ha).
  assert (Hv : gameBreakdown st !! "valorant"
               = Some (Num (game_minutes "valorant" sessions))).
  { rewrite Hg. rewrite (fold_games_num _ _ _ 0) by done.
    by rewrite Z.add_0_l. }
  assert (Hk : gameBreakdown st !! "kovaaks"
               = Some (Num (game_minutes "kovaaks" sessions))).
  { rewrite Hg. rewrite (fold_games_num _ _ _ 0) by done.
    by rewrite Z.add_0_l. }
  pose proof game_minutes_none as Hnone.
  exists st. split; [done|]. split; [done|]. split; [done|].
  split; [intros H; by rewrite Hv, Hnone|].
  split; [intros H; by rewrite Hk, Hnone|].
  split; intros k; rewrite <- elem_of_dom.
  - rewrite Hm, elem_of_dom_match. simpl. rewrite dom_empty_L, elem_of_empty.
    tauto.
  - rewrite Ha, elem_of_dom_aim. simpl. rewrite dom_empty_L, elem_of_empty.
    tauto.
Qed.

(** C4 on a collection with no valorant session. *)
Lemma breakdown_zero_filled_or_sparse_witness :
  Forall (fun s => game s <> "valorant") Examples.apex
  /\ exists st, generateSummaryStats Examples.apex = Ok st
                /\ gameBreakdown st !! "valorant" = Some (Num 0).
Proof.
  assert (Hno : Forall (fun s => game s <> "valorant") Examples.apex)
    by (repeat constructor; discriminate).
  split; [exact Hno|].
  destruct (breakdown_zero_filled_or_sparse Examples.apex)
    as (st & Hst & _ & _ & Hzero & _).
  exists st. split; [exact Hst|exact (Hzero Hno)].
Defined.








Lemma known_rows_sessions `{JsRuntime} (rows : list Row) :
  Forall known_row rows -> Forall known_game (map parsed_row rows).
Proof.
  intros Hk. apply Forall_fmap. eapply Forall_impl; [exact Hk|]. by intros r.
Qed.

(** C3 (as the specification words it fails on a row of an unknown
    game): the client then adds a [NaN] entry under that game, the server
    does not. *)
Lemma server_mirrors_client_fails :
  ~ server_mirrors_client Examples.apex_rows.
Proof.
  unfold server_mirrors_client. intros Heq.
  assert (Hs : (match stats_endpoint Examples.apex_rows with
                | Ok st => gameBreakdown st !! "apex"
                | Throw _ => None
                end) = None) by (vm_compute; reflexivity).
  assert (Hc : (match generateSummaryStats (map parsed_row Examples.apex_rows) with
                | Ok st => gameBreakdown st !! "apex"
                | Throw _ => None
                end) = Some NaN) by (vm_compute; reflexivity).
  rewrite Heq in Hs. rewrite Hs in Hc. discriminate Hc.
Qed.

(** C3.  On every stored collection the stats handler and
    [generateSummaryStats], run on the rows with their metadata parsed,
    both return, and agree on [totalSessions], [totalTimeMinutes],
    [avgSessionMinutes], both metadata breakdowns and the [valorant] and
    [kovaaks] entries of [gameBreakdown]; when every row is of one of
    these two games the two results are equal. *)
Theorem stats_endpoint_mirrors `{JsRuntime} (rows : list Row) :
  exists sv cl,
    stats_endpoint rows = Ok sv
    /\ generateSummaryStats (map parsed_row rows) = Ok cl
    /\ totalSessions sv = totalSessions cl
    /\ totalTimeMinutes sv = totalTimeMinutes cl
    /\ avgSessionMinutes sv = avgSessionMinutes cl
    /\ valorantMatchTypes sv = valorantMatchTypes cl
    /\ kovaaksAimTypes sv = kovaaksAimTypes cl
    /\ gameBreakdown sv !! "valorant" = gameBreakdown cl !! "valorant"
    /\ gameBreakdown sv !! "kovaaks" = gameBreakdown cl !! "kovaaks"
    /\ (Forall known_row rows -> sv = cl).
Proof.
  set (sessions := map parsed_row rows).
  set (final := fold_left summary_next sessions summary_init).
  assert (Hsv : stats_endpoint rows
                = Ok {| totalSessions := length rows;
                        totalTimeMinutes := sum_durations sessions;
                        avgSessionMinutes :=
                          if Nat.ltb 0 (length rows)
                          then js_div (sum_durations sessions) (length rows)
                          else 0%Q;
                        gameBreakdown :=
                          <["valorant" := Num (game_minutes "valorant" sessions)]>
                            (<["kovaaks" := Num (game_minutes "kovaaks" sessions)]> ∅);
                        valorantMatchTypes := acc_match final;
                        kovaaksAimTypes := acc_aim final |}).
  { unfold stats_endpoint.
    rewrite (forEachR_server (map parsed_row rows) summary_init).
    simpl. by rewrite sum_rows_durations, !sum_where_game_minutes. }
  assert (Htot : acc_total final = sum_durations sessions).
  { unfold final. by rewrite fold_total. }
  assert (Hlen : length sessions = length rows) by apply length_map.
  destruct (decide (rows = [])) as [->|Hne].
  { exists zeroStats, zeroStats. by repeat split. }
  assert (Hpos : Nat.ltb 0 (length rows) = true).
  { apply Nat.ltb_lt. destruct rows; [done|simpl; lia]. }
  assert (Hcl : generateSummaryStats sessions
                = Ok (stats_of (length rows) final)).
  { rewrite generateSummaryStats_eq, Hlen. unfold sessions.
    by destruct rows. }
  rewrite Hsv, Hcl, Hpos. do 2 eexists.
  split; [reflexivity|]. split; [reflexivity|].
  simpl. rewrite Htot.
  split; [done|]. split; [done|]. split; [done|]. split; [done|].
  split; [done|].
  split.
  { rewrite lookup_insert_eq. unfold final.
    rewrite (fold_games_num _ _ _ 0) by done. by rewrite Z.add_0_l. }
  split.
  { rewrite lookup_insert_ne by done. rewrite lookup_insert_eq. unfold final.
    rewrite (fold_games_num _ _ _ 0) by done. by rewrite Z.add_0_l. }
  intros Hk. unfold stats_of. rewrite Htot. simpl.
  f_equal. unfold final. symmetry. apply fold_games_known.
  by apply known_rows_sessions.
Qed.

(** C3 on three stored rows of the two known games. *)
Lemma stats_endpoint_mirrors_witness :
  Forall known_row Examples.known_rows
  /\ server_mirrors_client Examples.known_rows.
Proof.
  assert (Hk : Forall known_row Examples.known_rows)
    by (repeat constructor; (by left) || (by right)).
  split; [exact Hk|].
  destruct (@stats_endpoint_mirrors RefClock.runtime Examples.known_rows)
    as (sv & cl & Hsv & Hcl & _ & _ & _ & _ & _ & _ & _ & Heq).
  unfold server_mirrors_client.
  rewrite Hsv, Hcl, (Heq Hk). reflexivity.
Defined.

(* ===================================================================== *)
(** ** Properties of [prepareDailyTrendData] *)
(* ===================================================================== *)

Lemma game_minutes_snoc g l s :
  game_minutes g (l ++ [s])
  = game_minutes g l
    + (if decide (game s = g) then or_zero (durationMinutes s) else 0).
Proof.
  unfold game_minutes. rewrite filter_app, sum_durations_app.
  f_equal. change (game_minutes g [s] = if decide (game s = g)
                                       then or_zero (durationMinutes s) else 0).
  rewrite game_minutes_cons, game_minutes_nil.
  destruct (decide (game s = g)); lia.
Qed.

Lemma known_minutes (l : list Session) :
  sum_durations (filter known_game l)
  = game_minutes "valorant" l + game_minutes "kovaaks" l.
Proof.
  induction l as [|s l IH]; [done|].
  rewrite filter_cons, !game_minutes_cons.
  destruct (decide (known_game s)) as [Hk|Hk];
    destruct (decide (game s = "valorant")) as [Hv|Hv];
    destruct (decide (game s = "kovaaks")) as [Hkk|Hkk];
    try (exfalso; unfold known_game in Hk; (congruence || tauto));
    unfold sum_durations in *; simpl; lia.
Qed.


Lemma bucket_of_zero : bucket_of zeroGames [].
Proof. by split. Qed.

Lemma bucket_of_step b l s :
  bucket_of b l ->
  bucket_of (plus_assign b (game s) (or_zero (durationMinutes s))) (l ++ [s]).
Proof.
  intros [Hv Hk]. unfold bucket_of, plus_assign.
  rewrite !game_minutes_snoc. split.
  - destruct (decide (game s = "valorant")) as [->|Hne].
    + by rewrite lookup_insert_eq, Hv.
    + rewrite lookup_insert_ne by done. by rewrite Hv, Z.add_0_r.
  - destruct (decide (game s = "kovaaks")) as [->|Hne].
    + by rewrite lookup_insert_eq, Hk.
    + rewrite lookup_insert_ne by done. by rewrite Hk, Z.add_0_r.
Qed.

Section Daily.
Context `{RT : JsRuntime}.

Lemma on_date_snoc d l s :
  on_date d (l ++ [s])
  = on_date d l ++ (if decide (isoDateOf (date s) = Ok d) then [s] else []).
Proof.
  unfold on_date. by rewrite filter_app.
Qed.


Lemma daily_of_empty : daily_of ∅ [].
Proof. intros d. by rewrite lookup_empty. Qed.

Lemma daily_step_spec dailyData l s ds :
  daily_of dailyData l ->
  isoDateOf (date s) = Ok ds ->
  exists dailyData',
    daily_step dailyData s = Ok dailyData'
    /\ daily_of dailyData' (l ++ [s]).
Proof.
  intros Hinv Hds. unfold daily_step. rewrite Hds. simpl.
  eexists. split; [reflexivity|]. intros d.
  rewrite on_date_snoc. pose proof (Hinv d) as Hd.
  destruct (decide (d = ds)) as [->|Hne].
  - rewrite Hds. rewrite decide_True by done. rewrite lookup_alter_eq.
    destruct (dailyData !! ds) as [b|] eqn:Hb.
    + rewrite Hb. simpl. destruct Hd as [Hd _].
      split; [by apply bucket_of_step|]. by destruct (on_date ds l).
    + rewrite lookup_insert_eq. simpl. rewrite Hd. simpl.
      split; [|done]. apply (bucket_of_step zeroGames []), bucket_of_zero.
  - rewrite lookup_alter_ne by done.
    rewrite decide_False by (rewrite Hds; congruence).
    rewrite app_nil_r.
    destruct (dailyData !! ds); [done|]. by rewrite lookup_insert_ne.
Qed.

Lemma isoDateOf_readable s :
  date_readable s -> exists ds, isoDateOf (date s) = Ok ds.
Proof. intros [t Ht]. unfold isoDateOf. rewrite Ht. eauto. Qed.

Lemma forEachR_daily l2 : forall dailyData l1,
  daily_of dailyData l1 ->
  Forall date_readable l2 ->
  exists dailyData',
    forEachR daily_step dailyData l2 = Ok dailyData'
    /\ daily_of dailyData' (l1 ++ l2).
Proof.
  induction l2 as [|s l2 IH]; intros dailyData l1 Hinv Hr; simpl.
  - exists dailyData. by rewrite app_nil_r.
  - apply Forall_cons in Hr as [Hs Hr].
    destruct (isoDateOf_readable s Hs) as [ds Hds].
    destruct (daily_step_spec _ _ _ _ Hinv Hds) as (dd & Hstep & Hdd).
    rewrite Hstep. simpl.
    destruct (IH dd (l1 ++ [s]) Hdd Hr) as (dd' & Hrun & Hdd').
    exists dd'. split; [done|]. by rewrite <- app_assoc in Hdd'.
Qed.

Lemma chart_labels_sorted dailyData :
  StronglySorted str_lt (labels (chart_of dailyData)).
Proof. apply sorted_keys_strict. Qed.

End Daily.

Section DailyChart.
Context `{RT : JsRuntime}.

Lemma chart_of_lookup dailyData l i d :
  daily_of dailyData l ->
  labels (chart_of dailyData) !! i = Some d ->
  valorant_data (chart_of dailyData) !! i
  = Some (Some (Num (game_minutes "valorant" (on_date d l))))
  /\ kovaaks_data (chart_of dailyData) !! i
     = Some (Some (Num (game_minutes "kovaaks" (on_date d l)))).
Proof.
  intros Hinv Hi. simpl in Hi.
  assert (Hd : d ∈ sorted_keys dailyData)
    by (apply list_elem_of_lookup; eauto).
  apply elem_of_sorted_keys in Hd as [b Hb].
  pose proof (Hinv d) as Hbd. rewrite Hb in Hbd. destruct Hbd as [[Hv Hk] _].
  unfold valorant_data, kovaaks_data. simpl.
  rewrite !list_lookup_fmap, Hi. simpl. unfold daily_get.
  rewrite Hb. simpl. by rewrite Hv, Hk.
Qed.

Lemma chart_of_labels dailyData l d :
  daily_of dailyData l ->
  d ∈ labels (chart_of dailyData) <-> on_date d l <> [].
Proof.
  intros Hinv. simpl. rewrite elem_of_sorted_keys.
  pose proof (Hinv d) as Hd. destruct (dailyData !! d) as [b|].
  - split; [tauto|eauto].
  - split; [by intros [? ?]|done].
Qed.

End DailyChart.

(** C2 (as the specification words it fails on two kinds of input): a
    session of a game other than the two charted ones is left out of both
    chart values of its date, and a date the runtime cannot read makes
    [toISOString] throw. *)
Lemma daily_totals_cover_all_sessions_fails :
  ~ daily_totals_cover_all_sessions Examples.apex
  /\ ~ daily_totals_cover_all_sessions Examples.undated.
Proof.
  split.
  - intros (c & Hc & _ & Hsum).
    vm_compute in Hc. injection Hc as <-.
    destruct (Hsum 0%nat "2024-01-01" eq_refl) as (v & k & Hv & Hk & Heq).
    vm_compute in Hv. vm_compute in Hk.
    injection Hv as <-. injection Hk as <-.
    vm_compute in Heq. discriminate Heq.
  - intros (c & Hc & _). vm_compute in Hc. discriminate Hc.
Qed.

(** C2.  On the empty collection [prepareDailyTrendData] returns a chart
    with no label and no value.  Whenever it returns, its labels are
    strictly ascending.  When every record has a date the runtime can
    read it does return, a date is a label exactly when some session has
    it for canonical date, and at each label the valorant and the kovaaks
    values are the minutes of the sessions of that game and date, so that
    their sum is the total of the sessions of that date that are of one of
    these two games. *)
Theorem daily_trend_by_date `{JsRuntime} (sessions : list Session) :
  (exists c0,
     prepareDailyTrendData [] = Ok c0
     /\ labels c0 = [] /\ valorant_data c0 = [] /\ kovaaks_data c0 = [])
  /\ (forall c, prepareDailyTrendData sessions = Ok c ->
                StronglySorted str_lt (labels c))
  /\ (Forall date_readable sessions ->
      exists c,
        prepareDailyTrendData sessions = Ok c
        /\ StronglySorted str_lt (labels c)
        /\ (forall d, d ∈ labels c <-> on_date d sessions <> [])
        /\ forall i d, labels c !! i = Some d ->
             exists v k,
               valorant_data c !! i = Some (Some (Num v))
               /\ kovaaks_data c !! i = Some (Some (Num k))
               /\ v = game_minutes "valorant" (on_date d sessions)
               /\ k = game_minutes "kovaaks" (on_date d sessions)
               /\ v + k = sum_durations (filter known_game (on_date d sessions))).
Proof.
  split; [|split].
  - eexists. split; [reflexivity|]. by repeat split.
  - intros c Hc. unfold prepareDailyTrendData in Hc.
    destruct (dailyDataOf sessions) as [dd|e]; [|discriminate Hc].
    injection Hc as <-. apply chart_labels_sorted.
  - intros Hr.
    destruct (forEachR_daily sessions ∅ [] daily_of_empty Hr)
      as (dd & Hrun & Hdd).
    simpl in Hdd. exists (chart_of dd).
    split; [unfold prepareDailyTrendData, dailyDataOf; by rewrite Hrun|].
    split; [apply chart_labels_sorted|].
    split; [intros d; by apply chart_of_labels|].
    intros i d Hi.
    destruct (chart_of_lookup dd sessions i d Hdd Hi) as [Hv Hk].
    do 2 eexists. split; [exact Hv|]. split; [exact Hk|].
    split; [done|]. split; [done|]. by rewrite known_minutes.
Qed.

(** C2 on the scenario with a session of a third game added. *)
Lemma daily_trend_by_date_witness :
  Forall date_readable (Examples.scenario ++ Examples.apex)
  /\ exists c,
       prepareDailyTrendData (Examples.scenario ++ Examples.apex) = Ok c
       /\ labels c = ["2024-01-01"]
       /\ valorant_data c = [Some (Num 30)]
       /\ kovaaks_data c = [Some (Num 45)].
Proof.
  assert (Hr : Forall date_readable (Examples.scenario ++ Examples.apex))
    by (repeat constructor; vm_compute; eauto).
  split; [exact Hr|].
  destruct (@daily_trend_by_date RefClock.runtime
              (Examples.scenario ++ Examples.apex)) as (_ & _ & Hall).
  destruct (Hall Hr) as (c & Hc & _).
  exists c. split; [exact Hc|].
  vm_compute in Hc. injection Hc as <-. by repeat split.
Defined.

(* ===================================================================== *)
(** ** The aggregator and its argument *)
(* ===================================================================== *)





(** The client's pass over loaded records replaces a non-empty metadata
    text that [JSON.parse] rejects by the empty object. *)
Lemma client_load_step_unparsable `{JsRuntime} (s s' : Session) (text : string) :
  metadata s = MetaText text -> str_truthy text = true ->
  JSON_parse text = None ->
  client_load_step s = Ok s' -> metadata s' = MetaObject emptyObj.
Proof.
  intros Hm Ht Hp. unfold client_load_step. rewrite Hm, Ht, Hp.
  destruct (if str_truthy (date s)
            then if matches_ymd (date s) then Ok (date s)
                 else isoDateOf (date s)
            else Ok (date s)) as [d|e]; simpl; [|done].
  by intros [= <-].
Qed.

(** By contrast the pass of [loadFromDatabase] writes to the records. *)
Lemma loadFromDatabase_on_writes :
  fst (loadFromDatabase_on
         [Examples.session "kovaaks" "2024-01-02" (Some 45) (MetaText "{}")])
  = [Examples.session "kovaaks" "2024-01-02" (Some 45) (MetaObject emptyObj)].
Proof. reflexivity. Qed.

(* ===================================================================== *)
(** ** Rounding *)
(* ===================================================================== *)

(** [Math.round(e / 60000) = n] exactly when [e] is within half a minute
    of [n] minutes, the lower end included and the upper one excluded. *)
Lemma Math_round_div_spec (e n : Z) :
  Math_round_div e 60000 = n
  <-> 60000 * n - 30000 <= e < 60000 * n + 30000.
Proof.
  unfold Math_round_div. split.
  - intros <-.
    pose proof (Z.div_mod (2 * e + 60000) (2 * 60000) ltac:(lia)).
    pose proof (Z.mod_pos_bound (2 * e + 60000) (2 * 60000) ltac:(lia)).
    lia.
  - intros Hb. symmetry. apply (Z.div_unique _ _ _ (2 * e + 60000 - 120000 * n)); lia.
Qed.

Lemma Math_round_div_nonneg (e : Z) :
  0 <= Math_round_div e 60000 <-> -30000 <= e.
Proof.
  pose proof (proj1 (Math_round_div_spec e _) eq_refl) as Hb.
  split; intros Hle; [lia|].
  destruct (Z.le_gt_cases 0 (Math_round_div e 60000)); [done|lia].
Qed.

(** Rounding the elapsed time down to the whole second first gives the
    same number of minutes: the half-minute marks are whole seconds. *)
Lemma Math_round_div_whole_seconds (e : Z) :
  Math_round_div (1000 * (e / 1000)) 60000 = Math_round_div e 60000.
Proof.
  apply Math_round_div_spec.
  pose proof (proj1 (Math_round_div_spec e _) eq_refl) as Hb.
  pose proof (Z.div_mod e 1000 ltac:(lia)).
  pose proof (Z.mod_pos_bound e 1000 ltac:(lia)).
  lia.
Qed.

(* ===================================================================== *)
(** ** Properties of the timer *)
(* ===================================================================== *)

Module TimerProps.
Import Timer.

Section Invariant.
Context `{RT : JsRuntime}.

Lemma Inv_initial stored selected : Inv (initial stored selected).
Proof. split; simpl; intros; done. Qed.

Lemma triggerAlarm_frame t :
  let t' := triggerAlarm t in
  isRunning t' = isRunning t /\ timerInterval t' = timerInterval t
  /\ currentSession t' = currentSession t
  /\ elapsedTime t' = elapsedTime t /\ startTime t' = startTime t
  /\ sessions t' = sessions t
  /\ metadataContainer_shown (dom t') = metadataContainer_shown (dom t)
  /\ endButton_disabled (dom t') = endButton_disabled (dom t).
Proof. unfold triggerAlarm. destruct (alarmTriggered t); simpl; tauto. Qed.

Lemma updateTimer_frame now t :
  let t' := updateTimer now t in
  isRunning t' = isRunning t /\ timerInterval t' = timerInterval t
  /\ currentSession t' = currentSession t
  /\ elapsedTime t' = now - startTime t /\ startTime t' = startTime t
  /\ sessions t' = sessions t
  /\ metadataContainer_shown (dom t') = metadataContainer_shown (dom t)
  /\ endButton_disabled (dom t') = endButton_disabled (dom t).
Proof.
  unfold updateTimer, checkKovaaksTimeThreshold.
  repeat case_match; try (simpl; tauto).
  match goal with |- context [triggerAlarm ?x] =>
    pose proof (triggerAlarm_frame x) as Hf end.
  simpl in *. tauto.
Qed.

Lemma Inv_step e t t' :
  Inv t -> enabled e t = true -> handle e t = Ok t' -> Inv t'.
Proof.
  intros HInv Hen Hh. pose proof HInv as [Hrun Hshown].
  destruct e; simpl in Hen, Hh.
  - (* ClickStart *)
    injection Hh as <-. unfold startTimer.
    destruct (isRunning t) eqn:Hr; [done|].
    split; simpl; [eauto|]. intros Hs. destruct (Hshown Hs); congruence.
  - (* ClickEnd *)
    unfold showMetadataForm in Hh.
    destruct (isRunning t) eqn:Hr; simpl in Hh;
      [|by injection Hh as <-].
    destruct (currentSession t) as [cur|] eqn:Hc; [|done].
    injection Hh as <-. split; simpl; [eauto|].
    intros _. split; [done|]. split; [done|].
    eexists. split; [reflexivity|done].
  - (* Tick *)
    injection Hh as <-.
    destruct (updateTimer_frame now t)
      as (Hr & Hi & Hc & _ & _ & _ & Hm & _).
    split.
    + rewrite Hr, Hc. exact Hrun.
    + rewrite Hm. intros Hs. destruct (Hshown Hs) as (_ & Hoff & _).
      congruence.
  - (* ChangeGame *)
    unfold gameChanged, endTimer, showMetadataForm in Hh. simpl in Hh.
    destruct (isRunning t) eqn:Hr; simpl in Hh.
    + destruct (currentSession t) as [cur|] eqn:Hc;
        [|by destruct confirmed].
      destruct confirmed; injection Hh as <-; simpl.
      * split; simpl; [eauto|]. intros _. split; [done|]. split; [done|].
        eexists. split; [reflexivity|done].
      * split; simpl; [by rewrite Hc; eauto|]. rewrite Hc, Hr. exact Hshown.
    + injection Hh as <-. split; simpl; [by rewrite Hr|].
      rewrite Hr. exact Hshown.
  - (* ClickSaveValorant *)
    unfold saveValorantMetadata, attach_and_complete, completeSession in Hh.
    destruct (currentSession t); simpl in Hh; [|done].
    injection Hh as <-. split; simpl; done.
  - (* ClickSaveKovaaks *)
    unfold saveKovaaksMetadata, attach_and_complete, completeSession in Hh.
    destruct (currentSession t); simpl in Hh; [|done].
    injection Hh as <-. split; simpl; done.
  - (* ClickCancel *)
    unfold cancelMetadata, attach_and_complete, completeSession in Hh.
    destruct (currentSession t); simpl in Hh; [|done].
    injection Hh as <-. split; simpl; done.
  - (* ClickDismiss *)
    by injection Hh as <-.
  - (* Loaded *)
    by injection Hh as <-.
Qed.

Lemma Reachable_Inv t : Reachable t -> Inv t.
Proof.
  induction 1 as [stored selected|t e t' _ IH Hen Hh].
  - apply Inv_initial.
  - by eapply Inv_step.
Qed.

(** No listener throws in a state the page can be in. *)
Lemma handle_ok e t :
  Inv t -> enabled e t = true -> exists t', handle e t = Ok t'.
Proof.
  intros [Hrun Hshown] Hen. destruct e; simpl in *; eauto.
  - unfold showMetadataForm. destruct (isRunning t); simpl; eauto.
    destruct (Hrun eq_refl) as [cur ->]. eauto.
  - unfold gameChanged, endTimer, showMetadataForm. simpl.
    destruct (isRunning t); simpl; eauto.
    destruct (Hrun eq_refl) as [cur ->]. destruct confirmed; eauto.
  - destruct (Hshown Hen) as (_ & _ & cur & Hc & _).
    unfold saveValorantMetadata, attach_and_complete, completeSession.
    rewrite Hc. simpl. eauto.
  - destruct (Hshown Hen) as (_ & _ & cur & Hc & _).
    unfold saveKovaaksMetadata, attach_and_complete, completeSession.
    rewrite Hc. simpl. eauto.
  - destruct (Hshown Hen) as (_ & _ & cur & Hc & _).
    unfold cancelMetadata, attach_and_complete, completeSession.
    rewrite Hc. simpl. eauto.
Qed.

Lemma run_Reachable evs : forall t t',
  Reachable t -> run evs t = Ok t' -> Reachable t'.
Proof.
  induction evs as [|e evs IH]; intros t t' Hr Hrun; simpl in Hrun.
  - by injection Hrun as <-.
  - destruct (enabled e t) eqn:Hen; [|by eapply IH].
    destruct (handle e t) as [t1|err] eqn:Hh; simpl in Hrun; [|done].
    eapply IH; [|exact Hrun]. by eapply Reachable_step.
Qed.

(** From a state the page can be in, every sequence of events runs
    to the end. *)
Lemma run_ok evs : forall t,
  Reachable t -> exists t', run evs t = Ok t'.
Proof.
  induction evs as [|e evs IH]; intros t Hr; simpl; [eauto|].
  destruct (enabled e t) eqn:Hen; [|by apply IH].
  destruct (handle_ok e t (Reachable_Inv t Hr) Hen) as [t1 Hh].
  rewrite Hh. simpl. apply IH. by eapply Reachable_step.
Qed.

End Invariant.

Section Stop.
Context `{RT : JsRuntime}.

Lemma after_ticks_frame nows : forall t,
  let t' := after_ticks nows t in
  isRunning t' = isRunning t /\ timerInterval t' = timerInterval t
  /\ currentSession t' = currentSession t
  /\ elapsedTime t'
     = last_reading (elapsedTime t + startTime t) nows - startTime t
  /\ startTime t' = startTime t
  /\ sessions t' = sessions t
  /\ metadataContainer_shown (dom t') = metadataContainer_shown (dom t)
  /\ endButton_disabled (dom t') = endButton_disabled (dom t).
Proof.
  unfold last_reading.
  induction nows as [|now nows IH]; intros t; simpl.
  - repeat split; lia.
  - destruct (IH (updateTimer now t))
      as (H1 & H2 & H3 & H4 & H5 & H6 & H7 & H8).
    destruct (updateTimer_frame now t)
      as (U1 & U2 & U3 & U4 & U5 & U6 & U7 & U8).
    simpl in *.
    rewrite H1, H2, H3, H4, H5, H6, H7, H8, U1, U2, U3, U4, U5, U6, U7, U8.
    repeat split. rewrite last_cons.
    destruct (last nows); simpl; lia.
Qed.

Lemma run_ticks nows rest : forall t,
  timerInterval t = true ->
  run (map Tick nows ++ rest) t = run rest (after_ticks nows t).
Proof.
  induction nows as [|now nows IH]; intros t Hi; simpl; [done|].
  rewrite Hi. simpl. apply IH.
  destruct (updateTimer_frame now t) as (_ & -> & _). done.
Qed.

(** C5.  When the timer is started at [t0], the interval fires at the
    clock readings [nows] and the end button is then clicked at [t1], the
    current session gets [durationMinutes = Math.round(e / 60000)] where
    [e] is the time from [t0] to the reading of the last tick (0 if there
    was none); the reading [t1] plays no part.  The rounding is to the
    nearest minute, a half rounding up.  When the last tick read the
    latest whole second before the click, as ticks that run on time do,
    this is [Math.round((t1 - t0) / 60000)], and a click exactly 90 500
    ms after the start then gives 2. *)
Theorem stop_rounds_last_tick (stored : list Session) (selected : string)
    (t0 : Z) (nows : list Z) (t1 : Z) :
  exists t cur,
    run (ClickStart t0 :: map Tick nows ++ [ClickEnd t1])
      (initial stored selected) = Ok t
    /\ currentSession t = Some cur
    /\ durationMinutes cur
       = Some (Math_round_div (last_reading t0 nows - t0) 60000)
    /\ (forall n,
          Math_round_div (last_reading t0 nows - t0) 60000 = n
          <-> 60000 * n - 30000 <= last_reading t0 nows - t0
                                 < 60000 * n + 30000)
    /\ (last_reading t0 nows - t0 = 1000 * ((t1 - t0) / 1000) ->
        durationMinutes cur = Some (Math_round_div (t1 - t0) 60000)
        /\ (t1 - t0 = 90500 -> durationMinutes cur = Some 2)).
Proof.
  set (t := startTimer t0 (initial stored selected)).
  destruct (after_ticks_frame nows t)
    as (Hr & Hi & Hc & He & Hs & _ & _ & Hb).
  assert (Hrun : run (ClickStart t0 :: map Tick nows ++ [ClickEnd t1])
                   (initial stored selected)
                 = showMetadataForm t1 (after_ticks nows t)).
  { simpl. fold t. rewrite run_ticks by done. simpl. rewrite Hb. simpl.
    by destruct (showMetadataForm t1 (after_ticks nows t)). }
  rewrite Hrun. unfold showMetadataForm. rewrite Hr, Hc, He.
  subst t. simpl.
  replace (0 + (t0 - 0)) with t0 by lia.
  replace (last_reading t0 nows - (t0 - 0))
    with (last_reading t0 nows - t0) by lia.
  eexists _, _. split; [reflexivity|]. split; [reflexivity|]. simpl.
  split; [done|]. split; [intros n; apply Math_round_div_spec|].
  intros ->. rewrite Math_round_div_whole_seconds. split; [done|].
  by intros ->.
Qed.

End Stop.

(** C5 on a start at 0, ninety ticks that run on time and the end button
    clicked at 90 500 ms. *)
Lemma stop_rounds_last_tick_witness :
  last_reading 0 (Examples.on_time 90) - 0 = 1000 * ((90500 - 0) / 1000)
  /\ exists t cur,
       run (ClickStart 0 :: map Tick (Examples.on_time 90) ++ [ClickEnd 90500])
         (initial [] "valorant") = Ok t
       /\ currentSession t = Some cur
       /\ durationMinutes cur = Some 2.
Proof.
  assert (Hb : last_reading 0 (Examples.on_time 90) - 0
               = 1000 * ((90500 - 0) / 1000))
    by (vm_compute; reflexivity).
  split; [exact Hb|].
  destruct (@stop_rounds_last_tick RefClock.runtime [] "valorant" 0
              (Examples.on_time 90) 90500)
    as (t & cur & Hrun & Hcur & _ & _ & Hon).
  exists t, cur. split; [exact Hrun|]. split; [exact Hcur|].
  exact (proj2 (Hon Hb) eq_refl).
Defined.

(** C5 (as the specification words it fails): the rounded time is the
    one read at the last tick, not the one at the click.  With ticks a
    few milliseconds late and the click 30 002 ms after the start the
    last reading is 29 004 ms and the duration 0, not 1; with the click
    at 90 500 ms before the ninetieth tick has run the duration is 1,
    not 2. *)
Lemma stop_rounds_wall_clock_fails :
  ~ stop_rounds_wall_clock [] "valorant" 0 Examples.jitter_trace 30002
  /\ ~ stop_rounds_wall_clock [] "valorant" 0 (ticks 89 1000 1000) 90500.
Proof.
  split; intros (t & cur & Hrun & Hcur & Hd);
    vm_compute in Hrun; injection Hrun as <-;
    simpl in Hcur; injection Hcur as <-;
    vm_compute in Hd; discriminate Hd.
Qed.

Section Completion.
Context `{RT : JsRuntime}.

(** C6.  In every state the page can be in, completing the session
    (saving or skipping the metadata form) appends one record, and
    that record carries [durationMinutes = Math.round(elapsedTime /
    60000)], a number that is never missing; it is not clamped: it is
    non-negative exactly when the elapsed time read at the last tick
    is not below -30 000 ms. *)
Theorem appended_duration_is_rounded (t : Tracker) (e : Event) :
  Reachable t -> completes e -> enabled e t = true ->
  exists t' cur,
    handle e t = Ok t'
    /\ sessions t' = sessions t ++ [cur]
    /\ durationMinutes cur = Some (Math_round_div (elapsedTime t) 60000)
    /\ (0 <= Math_round_div (elapsedTime t) 60000
        <-> -30000 <= elapsedTime t).
Proof.
  intros Hr Hc Hen. destruct (Reachable_Inv t Hr) as [_ Hshown].
  assert (Hs : metadataContainer_shown (dom t) = true)
    by (destruct e; simpl in *; done).
  destruct (Hshown Hs) as (_ & _ & cur & Hcur & Hd).
  destruct e; simpl in Hc; try done; simpl;
    unfold saveValorantMetadata, saveKovaaksMetadata, cancelMetadata,
      attach_and_complete, completeSession;
    rewrite Hcur; simpl;
    eexists _, _; (split; [reflexivity|]); simpl;
    (split; [reflexivity|]); simpl;
    (split; [exact Hd|apply Math_round_div_nonneg]).
Qed.

(** C7.  [startTimer] on a running tracker returns it unchanged, so a
    second start keeps the state of the first, [startTime] and
    current session included; [showMetadataForm] on a tracker that
    is not running returns it unchanged; neither throws. *)
Theorem start_running_stop_idle_noop (t : Tracker) (now now' : Z) :
  (isRunning t = true ->
   startTimer now t = t /\ handle (ClickStart now) t = Ok t)
  /\ startTimer now' (startTimer now t) = startTimer now t
  /\ (isRunning t = false ->
      showMetadataForm now t = Ok t /\ handle (ClickEnd now) t = Ok t).
Proof.
  split; [|split].
  - intros Hr. simpl. unfold startTimer. by rewrite Hr.
  - unfold startTimer. destruct (isRunning t) eqn:Hr; simpl.
    + by rewrite Hr.
    + done.
  - intros Hr. simpl. unfold showMetadataForm. by rewrite Hr.
Qed.



End Completion.

Section Alarm.
Context `{RT : JsRuntime}.

Lemma updateTimer_alarm now t :
  current_is_kovaaks t = true ->
  let t' := updateTimer now t in
  alarmTriggered t' = alarmTriggered t || reached_at t now
  /\ alarmPlays t'
     = (alarmPlays t
        + if negb (alarmTriggered t) && reached_at t now then 1 else 0)%nat
  /\ (alarmTriggered t = false -> reached_at t now = true ->
      alarmSound_playing (dom t') = true
      /\ alarmNotification_shown (dom t') = true).
Proof.
  intros Hk. unfold updateTimer.
  match goal with |- context [checkKovaaksTimeThreshold now ?x] =>
    set (t1 := x) end.
  change (current_is_kovaaks t1) with (current_is_kovaaks t).
  change (alarmTriggered t1) with (alarmTriggered t).
  rewrite Hk. simpl.
  destruct (alarmTriggered t) eqn:Ha; simpl.
  { split; [done|]. split; [lia|done]. }
  unfold checkKovaaksTimeThreshold.
  change (hourlyAlarmThreshold <=? todayKovaaksMinutes now t1)
    with (reached_at t now).
  destruct (reached_at t now); simpl.
  - unfold triggerAlarm. simpl. rewrite ?Ha. simpl.
    split; [done|]. split; [lia|done].
  - rewrite ?Ha. split; [done|]. split; [lia|done].
Qed.



End Alarm.


(** C6 (as the specification words it fails): after the clock has been
    set back during a session the elapsed time read at the next tick is
    negative, and the record appended at completion carries
    [durationMinutes = -2]. *)
Lemma appended_duration_nonnegative_fails :
  ~ appended_duration_nonnegative [] "valorant" Examples.skewed_trace.
Proof.
  intros (t & Hrun & Hall). vm_compute in Hrun. injection Hrun as <-.
  simpl in Hall. apply Forall_cons in Hall as [(d & Hd & Hpos) _].
  simpl in Hd. injection Hd as <-. vm_compute in Hpos. by apply Hpos.
Qed.

(** C6 on a session stopped after a last tick at 90 500 ms and completed
    by skipping the form. *)
Lemma appended_duration_is_rounded_witness :
  Reachable Examples.awaiting
  /\ completes ClickCancel
  /\ enabled ClickCancel Examples.awaiting = true
  /\ exists t' cur,
       handle ClickCancel Examples.awaiting = Ok t'
       /\ sessions t' = [cur]
       /\ durationMinutes cur = Some 2.
Proof.
  assert (Hr : Reachable Examples.awaiting).
  { apply (run_Reachable [ClickStart 0; Tick 90500; ClickEnd 90600]
             (initial [] "kovaaks")).
    - apply Reachable_initial.
    - vm_compute. reflexivity. }
  assert (Hen : enabled ClickCancel Examples.awaiting = true) by reflexivity.
  split; [exact Hr|]. split; [exact I|]. split; [exact Hen|].
  destruct (@appended_duration_is_rounded RefClock.runtime Examples.awaiting
              ClickCancel Hr I Hen)
    as (t' & cur & Hh & Hs & Hd & _).
  exists t', cur. split; [exact Hh|]. split; [exact Hs|exact Hd].
Defined.

(** C7 on a running tracker and on a fresh one. *)
Lemma start_running_stop_idle_noop_witness :
  isRunning Examples.running_kovaaks = true
  /\ startTimer 5000 Examples.running_kovaaks = Examples.running_kovaaks
  /\ isRunning (initial [] "kovaaks") = false
  /\ showMetadataForm 5000 (initial [] "kovaaks") = Ok (initial [] "kovaaks").
Proof.
  destruct (@start_running_stop_idle_noop RefClock.runtime
              Examples.running_kovaaks 5000 5000) as (Hstart & _ & _).
  destruct (@start_running_stop_idle_noop RefClock.runtime
              (initial [] "kovaaks") 5000 5000) as (_ & _ & Hstop).
  split; [reflexivity|]. split; [exact (proj1 (Hstart eq_refl))|].
  split; [reflexivity|exact (proj1 (Hstop eq_refl))].
Defined.

End TimerProps.

(* ===================================================================== *)
(** * Second part: properties *)
(* ===================================================================== *)

(* ===================================================================== *)
(** ** The summary, value by value *)
(* ===================================================================== *)

Lemma sum_over_app f l1 l2 :
  sum_over f (l1 ++ l2) = sum_over f l1 + sum_over f l2.
Proof. unfold sum_over. induction l1 as [|s l1 IH]; simpl; lia. Qed.

Lemma sum_over_perm f l1 l2 : l1 ≡ₚ l2 -> sum_over f l1 = sum_over f l2.
Proof.
  unfold sum_over. induction 1; simpl; lia.
Qed.

Lemma sum_durations_sum_over l : sum_durations l = sum_over (fun s => or_zero (durationMinutes s)) l.
Proof. done. Qed.

Lemma game_minutes_sum_over g l :
  game_minutes g l
  = sum_over (fun s => if decide (game s = g)
                       then or_zero (durationMinutes s) else 0) l.
Proof.
  induction l as [|s l IH]; [done|].
  rewrite game_minutes_cons, IH. done.
Qed.

Lemma lookup_bump m k' n k :
  bump m k' n !! k
  = if decide (k' = k) then Some (or_zero (m !! k) + n) else m !! k.
Proof.
  unfold bump. destruct (decide (k' = k)) as [->|Hne].
  - by rewrite lookup_insert_eq.
  - by rewrite lookup_insert_ne.
Qed.

Lemma entries_count_absent (entries : list (string * Z)) k :
  k ∉ map fst entries ->
  foldr (fun e total => (if decide (fst e = k) then snd e else 0) + total)
        0 entries = 0.
Proof.
  induction entries as [|[label n] entries IH]; simpl; [done|].
  intros Hn. rewrite not_elem_of_cons in Hn. destruct Hn as [Hne Hn].
  rewrite decide_False by done. by rewrite IH.
Qed.

(** The entry of label [k] after the entries of one session have been
    added. *)
Lemma lookup_add_matchTypes entries : forall vm k,
  add_matchTypes vm entries !! k
  = if bool_decide (k ∈ map fst entries)
    then Some (or_zero (vm !! k)
               + foldr (fun e total =>
                          (if decide (fst e = k) then snd e else 0) + total)
                       0 entries)
    else vm !! k.
Proof.
  unfold add_matchTypes.
  induction entries as [|[label n] entries IH]; intros vm k; simpl; [done|].
  rewrite IH, lookup_bump. simpl.
  destruct (decide (label = k)) as [->|Hne].
  - rewrite (bool_decide_eq_true_2 (k ∈ k :: map fst entries))
      by apply list_elem_of_here.
    case_bool_decide; simpl; apply (f_equal Some); [lia|].
    rewrite entries_count_absent by done. lia.
  - destruct (bool_decide (k ∈ map fst entries)) eqn:Hin.
    + apply bool_decide_eq_true_1 in Hin.
      rewrite bool_decide_eq_true_2 by (by apply list_elem_of_further).
      apply (f_equal Some); lia.
    + apply bool_decide_eq_false_1 in Hin.
      rewrite bool_decide_eq_false_2; [done|].
      intros Hc. apply elem_of_cons in Hc as [?|?]; congruence.
Qed.

Lemma match_labels_count k s :
  k ∉ match_labels s -> label_count k s = 0.
Proof.
  unfold match_labels, label_count.
  destruct (String.eqb (game s) "valorant"); [|done].
  destruct (meta_field (metadata s) matchTypes) as [entries|]; [|done].
  apply entries_count_absent.
Qed.

(** One session moves the entry of label [k] by its count, creating the
    entry when the session carries the label. *)
Lemma summary_next_match acc s k :
  acc_match (summary_next acc s) !! k
  = if bool_decide (k ∈ match_labels s)
    then Some (or_zero (acc_match acc !! k) + label_count k s)
    else acc_match acc !! k.
Proof.
  simpl. unfold match_labels, label_count.
  destruct (String.eqb (game s) "valorant").
  - destruct (meta_field (metadata s) matchTypes) as [entries|].
    + apply lookup_add_matchTypes.
    + rewrite bool_decide_eq_false_2 by apply not_elem_of_nil. done.
  - rewrite bool_decide_eq_false_2 by apply not_elem_of_nil. done.
Qed.

Lemma summary_next_aim acc s k :
  acc_aim (summary_next acc s) !! k
  = if bool_decide (k ∈ aim_labels s)
    then Some (or_zero (acc_aim acc !! k) + aim_minutes k s)
    else acc_aim acc !! k.
Proof.
  simpl. unfold aim_minutes, aim_labels.
  destruct (String.eqb (game s) "kovaaks");
    [|rewrite !bool_decide_eq_false_2 by apply not_elem_of_nil; done].
  destruct (meta_field (metadata s) aimType) as [a|];
    [|rewrite !bool_decide_eq_false_2 by apply not_elem_of_nil; done].
  destruct (str_truthy a);
    [|rewrite !bool_decide_eq_false_2 by apply not_elem_of_nil; done].
  rewrite lookup_bump. destruct (decide (a = k)) as [->|Hne].
  - rewrite !bool_decide_eq_true_2 by apply list_elem_of_here. done.
  - rewrite !bool_decide_eq_false_2; [done|].
    intros Hc. apply list_elem_of_singleton in Hc. congruence.
Qed.

Lemma fold_breakdown (proj : SummaryAcc -> gmap string Z)
    (labels : Session -> list string) (amount : string -> Session -> Z) :
  (forall acc s k,
     proj (summary_next acc s) !! k
     = if bool_decide (k ∈ labels s)
       then Some (or_zero (proj acc !! k) + amount k s)
       else proj acc !! k) ->
  (forall k s, k ∉ labels s -> amount k s = 0) ->
  forall l acc k,
    proj (fold_left summary_next l acc) !! k
    = if bool_decide (Exists (fun s => k ∈ labels s) l)
      then Some (or_zero (proj acc !! k) + sum_over (amount k) l)
      else proj acc !! k.
Proof.
  intros Hstep Hzero. induction l as [|s l IH]; intros acc k.
  - rewrite bool_decide_eq_false_2; [done|]. by intros H%Exists_nil.
  - change (fold_left summary_next (s :: l) acc)
      with (fold_left summary_next l (summary_next acc s)).
    rewrite IH, Hstep.
    destruct (bool_decide (k ∈ labels s)) eqn:Hs.
    + apply bool_decide_eq_true_1 in Hs.
      rewrite (bool_decide_eq_true_2 (Exists _ (s :: l)))
        by (by apply Exists_cons_hd).
      case_bool_decide; simpl; apply (f_equal Some); unfold sum_over; simpl; [lia|].
      assert (Hrest : sum_over (amount k) l = 0).
      { unfold sum_over. clear IH. induction l as [|s' l IHl]; [done|].
        simpl. rewrite Hzero.
        - rewrite IHl; [done|]. intros Hc. apply H. by apply Exists_cons_tl.
        - intros Hc. apply H. by apply Exists_cons_hd. }
      unfold sum_over in Hrest. lia.
    + apply bool_decide_eq_false_1 in Hs.
      destruct (bool_decide (Exists (fun s0 => k ∈ labels s0) l)) eqn:Hl.
      * apply bool_decide_eq_true_1 in Hl.
        rewrite bool_decide_eq_true_2 by (by apply Exists_cons_tl).
        unfold sum_over. simpl. rewrite (Hzero k s Hs).
        apply (f_equal Some). lia.
      * apply bool_decide_eq_false_1 in Hl.
        rewrite bool_decide_eq_false_2; [done|].
        intros Hc. apply Exists_cons in Hc as [?|?]; done.
Qed.

Lemma aim_minutes_zero k s : k ∉ aim_labels s -> aim_minutes k s = 0.
Proof. intros Hn. unfold aim_minutes. by rewrite bool_decide_eq_false_2. Qed.

(** X1.  In the result of [generateSummaryStats] the entry of a match
    type is the sum, over the valorant sessions, of the counts their
    metadata gives it, and the entry of an aim type is the sum of the
    minutes of the kovaaks sessions whose metadata selects it; a label no
    session carries has no entry. *)
Theorem breakdown_values (sessions : list Session) (k : string) :
  exists st,
    generateSummaryStats sessions = Ok st
    /\ valorantMatchTypes st !! k
       = breakdown_entry match_labels (label_count k) k sessions
    /\ kovaaksAimTypes st !! k
       = breakdown_entry aim_labels (aim_minutes k) k sessions.
Proof.
  destruct (generateSummaryStats_fields sessions)
    as (st & Hst & _ & _ & _ & Hm & Ha).
  exists st. split; [done|]. unfold breakdown_entry. split.
  - rewrite Hm.
    rewrite (fold_breakdown acc_match match_labels label_count
               summary_next_match match_labels_count).
    simpl. rewrite lookup_empty. simpl. by case_bool_decide.
  - rewrite Ha.
    rewrite (fold_breakdown acc_aim aim_labels aim_minutes
               summary_next_aim aim_minutes_zero).
    simpl. rewrite lookup_empty. simpl. by case_bool_decide.
Qed.

Lemma Exists_perm {A} (P : A -> Prop) (l1 l2 : list A) :
  l1 ≡ₚ l2 -> Exists P l1 <-> Exists P l2.
Proof.
  intros Hp. rewrite !Exists_exists.
  split; intros (x & Hx & HP); exists x; split; try done.
  - by rewrite <- Hp.
  - by rewrite Hp.
Qed.

Lemma bool_decide_Exists_perm {A} (P : A -> Prop) `{!forall x, Decision (P x)}
    (l1 l2 : list A) :
  l1 ≡ₚ l2 -> bool_decide (Exists P l1) = bool_decide (Exists P l2).
Proof. intros Hp. apply bool_decide_ext. by apply Exists_perm. Qed.

(** The entry of game [g] in the map the summary builds, whatever the
    entry was before. *)
Lemma fold_games_entry g l : forall acc,
  acc_games (fold_left summary_next l acc) !! g
  = match acc_games acc !! g with
    | Some (Num a) => Some (Num (a + game_minutes g l))
    | Some NaN => Some NaN
    | None => if bool_decide (Exists (fun s => game s = g) l)
              then Some NaN else None
    end.
Proof.
  induction l as [|s l IH]; intros acc.
  - simpl. rewrite game_minutes_nil.
    destruct (acc_games acc !! g) as [[a|]|]; try done.
    by rewrite Z.add_0_r.
  - change (fold_left summary_next (s :: l) acc)
      with (fold_left summary_next l (summary_next acc s)).
    rewrite IH. simpl. unfold plus_assign. rewrite game_minutes_cons.
    destruct (decide (game s = g)) as [Hg|Hg].
    + rewrite Hg, lookup_insert_eq.
      destruct (acc_games acc !! g) as [[a|]|]; simpl; try done.
      * by rewrite Z.add_assoc.
      * rewrite (bool_decide_eq_true_2 (Exists _ (s :: l)));
          [done|by apply Exists_cons_hd].
    + rewrite lookup_insert_ne by done.
      destruct (acc_games acc !! g) as [[a|]|]; simpl; try done.
      apply (f_equal (fun b : bool => if b then Some NaN else None)).
      apply bool_decide_ext. rewrite Exists_cons. tauto.
Qed.

Lemma fold_games_init g l :
  acc_games (fold_left summary_next l summary_init) !! g = game_entry g l.
Proof.
  rewrite fold_games_entry. unfold game_entry. simpl.
  destruct (decide (g = "valorant")) as [->|Hv]; [done|].
  destruct (decide (g = "kovaaks")) as [->|Hk]; [done|].
  rewrite zeroGames_other by done.
  rewrite (bool_decide_eq_false_2 (g = "valorant" \/ g = "kovaaks")) by tauto.
  done.
Qed.

Lemma unknown_minutes (l : list Session) :
  sum_durations l
  = sum_durations (filter known_game l)
    + sum_durations (filter (fun s => ~ known_game s) l).
Proof.
  induction l as [|s l IH]; [done|].
  rewrite !filter_cons.
  destruct (decide (known_game s)); destruct (decide (~ known_game s));
    try tauto; unfold sum_durations in *; simpl; lia.
Qed.

(** X2.  In the result of [generateSummaryStats] the entry of
    [gameBreakdown] for a game other than [valorant] and [kovaaks] is
    [NaN] when some session is of that game and absent otherwise, and
    [totalTimeMinutes] is the sum of the [valorant] and [kovaaks] minutes
    and of the minutes of the sessions of the other games. *)
Theorem unknown_games_counted_not_broken_down (sessions : list Session)
    (g : string) :
  exists st,
    generateSummaryStats sessions = Ok st
    /\ gameBreakdown st !! g = game_entry g sessions
    /\ totalTimeMinutes st
       = game_minutes "valorant" sessions + game_minutes "kovaaks" sessions
         + sum_durations (filter (fun s => ~ known_game s) sessions).
Proof.
  destruct (generateSummaryStats_fields sessions)
    as (st & Hst & _ & Ht & Hg & _).
  exists st. split; [done|]. split.
  - rewrite Hg. apply fold_games_init.
  - rewrite Ht, fold_total. simpl.
    rewrite (unknown_minutes sessions), known_minutes. lia.
Qed.

Lemma game_entry_perm g l1 l2 : l1 ≡ₚ l2 -> game_entry g l1 = game_entry g l2.
Proof.
  intros Hp. unfold game_entry.
  rewrite !game_minutes_sum_over, (sum_over_perm _ _ _ Hp).
  by rewrite (bool_decide_Exists_perm _ _ _ Hp).
Qed.

Lemma breakdown_entry_perm labels amount k l1 l2 :
  l1 ≡ₚ l2 ->
  breakdown_entry labels amount k l1 = breakdown_entry labels amount k l2.
Proof.
  intros Hp. unfold breakdown_entry.
  by rewrite (sum_over_perm _ _ _ Hp), (bool_decide_Exists_perm _ _ _ Hp).
Qed.

Lemma fold_match_entry l k :
  acc_match (fold_left summary_next l summary_init) !! k
  = breakdown_entry match_labels (label_count k) k l.
Proof.
  rewrite (fold_breakdown acc_match match_labels label_count
             summary_next_match match_labels_count).
  unfold breakdown_entry. simpl. rewrite lookup_empty. simpl.
  by case_bool_decide.
Qed.

Lemma fold_aim_entry l k :
  acc_aim (fold_left summary_next l summary_init) !! k
  = breakdown_entry aim_labels (aim_minutes k) k l.
Proof.
  rewrite (fold_breakdown acc_aim aim_labels aim_minutes
             summary_next_aim aim_minutes_zero).
  unfold breakdown_entry. simpl. rewrite lookup_empty. simpl.
  by case_bool_decide.
Qed.

(** X3.  [generateSummaryStats] does not depend on the order of the
    sessions: two collections with the same records, in any order, give
    the same result. *)
Theorem summary_order_independent (l1 l2 : list Session) :
  l1 ≡ₚ l2 -> generateSummaryStats l1 = generateSummaryStats l2.
Proof.
  intros Hp. rewrite !generateSummaryStats_eq. f_equal.
  destruct l1 as [|s1 l1].
  { apply Permutation_nil_l in Hp. by subst. }
  destruct l2 as [|s2 l2].
  { by apply Permutation_nil_r in Hp. }
  unfold stats_of.
  rewrite !fold_total, (Permutation_length Hp).
  rewrite !sum_durations_sum_over, (sum_over_perm _ _ _ Hp).
  f_equal; apply map_eq; intros k.
  - rewrite !fold_games_init. by apply game_entry_perm.
  - rewrite !fold_match_entry. by apply breakdown_entry_perm.
  - rewrite !fold_aim_entry. by apply breakdown_entry_perm.
Qed.

Lemma summary_order_independent_witness :
  Examples.scenario ≡ₚ reverse Examples.scenario
  /\ generateSummaryStats Examples.scenario
     = generateSummaryStats (reverse Examples.scenario).
Proof.
  assert (Hp : Examples.scenario ≡ₚ reverse Examples.scenario)
    by (symmetry; apply reverse_Permutation).
  split; [exact Hp|]. exact (summary_order_independent _ _ Hp).
Defined.

(* ===================================================================== *)
(** ** The daily chart and the summary *)
(* ===================================================================== *)

Lemma games_of_fold l : forall acc,
  acc_games (fold_left summary_next l acc)
  = fold_left (fun b s => plus_assign b (game s) (or_zero (durationMinutes s)))
              l (acc_games acc).
Proof. induction l as [|s l IH]; intros acc; simpl; [done|]. by rewrite IH. Qed.

Lemma games_of_summary l :
  games_of l = acc_games (fold_left summary_next l summary_init).
Proof. by rewrite games_of_fold. Qed.

Lemma games_of_entry g l : games_of l !! g = game_entry g l.
Proof. rewrite games_of_summary. apply fold_games_init. Qed.

Lemma games_of_perm l1 l2 : l1 ≡ₚ l2 -> games_of l1 = games_of l2.
Proof.
  intros Hp. apply map_eq. intros g.
  rewrite !games_of_entry. by apply game_entry_perm.
Qed.

Lemma games_of_snoc l s :
  games_of (l ++ [s])
  = plus_assign (games_of l) (game s) (or_zero (durationMinutes s)).
Proof. unfold games_of. by rewrite fold_left_app. Qed.

Lemma bucket_on_snoc x s :
  bucket_on (x ++ [s])
  = Some (plus_assign (default zeroGames (bucket_on x)) (game s)
            (or_zero (durationMinutes s))).
Proof.
  destruct x as [|s0 x]; [done|].
  change (bucket_on ((s0 :: x) ++ [s])) with (Some (games_of ((s0 :: x) ++ [s]))).
  by rewrite games_of_snoc.
Qed.

Section DailyExact.
Context `{RT : JsRuntime}.

Lemma daily_exact_step dailyData l s ds :
  daily_exact dailyData l ->
  isoDateOf (date s) = Ok ds ->
  exists dailyData',
    daily_step dailyData s = Ok dailyData'
    /\ daily_exact dailyData' (l ++ [s]).
Proof.
  intros Hinv Hds. unfold daily_step. rewrite Hds. simpl.
  eexists. split; [reflexivity|]. intros d.
  rewrite on_date_snoc. pose proof (Hinv d) as Hd.
  destruct (decide (d = ds)) as [->|Hne].
  - rewrite Hds. rewrite decide_True by done. rewrite lookup_alter_eq.
    rewrite bucket_on_snoc, <- Hd.
    destruct (dailyData !! ds) as [b|] eqn:Hb; simpl.
    + by rewrite Hb.
    + by rewrite lookup_insert_eq.
  - rewrite lookup_alter_ne by done.
    rewrite decide_False by (rewrite Hds; congruence).
    rewrite app_nil_r, <- Hd.
    destruct (dailyData !! ds); [done|]. by rewrite lookup_insert_ne.
Qed.

Lemma forEachR_daily_exact l2 : forall dailyData l1,
  daily_exact dailyData l1 ->
  Forall date_readable l2 ->
  exists dailyData',
    forEachR daily_step dailyData l2 = Ok dailyData'
    /\ daily_exact dailyData' (l1 ++ l2).
Proof.
  induction l2 as [|s l2 IH]; intros dailyData l1 Hinv Hr; simpl.
  - exists dailyData. by rewrite app_nil_r.
  - apply Forall_cons in Hr as [Hs Hr].
    destruct (isoDateOf_readable s Hs) as [ds Hds].
    destruct (daily_exact_step _ _ _ _ Hinv Hds) as (dd & Hstep & Hdd).
    rewrite Hstep. simpl.
    destruct (IH dd (l1 ++ [s]) Hdd Hr) as (dd' & Hrun & Hdd').
    exists dd'. split; [done|]. by rewrite <- app_assoc in Hdd'.
Qed.

Lemma dailyDataOf_exact l :
  Forall date_readable l ->
  exists dailyData, dailyDataOf l = Ok dailyData /\ daily_exact dailyData l.
Proof.
  intros Hr.
  assert (H0 : daily_exact ∅ []) by (intros d; rewrite lookup_empty; reflexivity).
  destruct (forEachR_daily_exact l ∅ [] H0 Hr) as (dd & Hrun & Hdd).
  exists dd. by split.
Qed.

Lemma daily_step_unreadable dailyData s :
  Date_parse (date s) = None -> daily_step dailyData s = Throw RangeError.
Proof. intros Hn. unfold daily_step, isoDateOf. by rewrite Hn. Qed.

Lemma daily_step_readable dailyData s :
  date_readable s -> exists dailyData', daily_step dailyData s = Ok dailyData'.
Proof.
  intros [t Ht]. unfold daily_step, isoDateOf. rewrite Ht. simpl. eauto.
Qed.

(** A date the runtime cannot read stops the loop with a [RangeError]. *)
Lemma forEachR_daily_unreadable l : forall dailyData,
  ~ Forall date_readable l ->
  forEachR daily_step dailyData l = Throw RangeError.
Proof.
  induction l as [|s l IH]; intros dailyData Hn.
  - destruct Hn. constructor.
  - change (forEachR daily_step dailyData (s :: l))
      with (bindR (daily_step dailyData s)
              (fun acc' => forEachR daily_step acc' l)).
    destruct (Date_parse (date s)) as [t|] eqn:Ht.
    + destruct (daily_step_readable dailyData s) as [dd Hdd].
      { unfold date_readable. rewrite Ht. eauto. }
      rewrite Hdd. simpl. apply IH. intros Hall. apply Hn.
      constructor; [|done]. unfold date_readable. rewrite Ht. eauto.
    + by rewrite daily_step_unreadable.
Qed.

Lemma on_date_perm d l1 l2 : l1 ≡ₚ l2 -> on_date d l1 ≡ₚ on_date d l2.
Proof. intros Hp. unfold on_date. by rewrite Hp. Qed.

Lemma bucket_on_perm x1 x2 : x1 ≡ₚ x2 -> bucket_on x1 = bucket_on x2.
Proof.
  intros Hp. destruct x1 as [|s1 x1].
  { apply Permutation_nil_l in Hp. by subst. }
  destruct x2 as [|s2 x2].
  { by apply Permutation_nil_r in Hp. }
  simpl. f_equal. by apply games_of_perm.
Qed.

End DailyExact.

Section DailyTotals.
Context `{RT : JsRuntime}.

Lemma on_date_cons d s l :
  on_date d (s :: l)
  = if decide (isoDateOf (date s) = Ok d) then s :: on_date d l
    else on_date d l.
Proof. unfold on_date. by rewrite filter_cons. Qed.

Lemma sum_one_date (r : Result string) (c : Z) (ds : list string) d0 :
  r = Ok d0 -> NoDup ds -> d0 ∈ ds ->
  foldr (fun d total => (if decide (r = Ok d) then c else 0) + total) 0 ds = c.
Proof.
  intros ->. induction ds as [|d ds IH]; intros Hn Hin.
  - by apply elem_of_nil in Hin.
  - apply NoDup_cons in Hn as [Hd Hn]. simpl.
    apply elem_of_cons in Hin as [<-|Hin].
    + rewrite decide_True by done.
      assert (Hrest : foldr (fun d total =>
                               (if decide (Ok d0 = Ok d) then c else 0) + total)
                        0 ds = 0).
      { clear IH Hn. induction ds as [|d ds IH]; simpl; [done|].
        rewrite not_elem_of_cons in Hd. destruct Hd as [Hne Hd].
        rewrite decide_False by congruence. by rewrite IH. }
      rewrite Hrest. lia.
    + rewrite decide_False by (intros [= ->]; done).
      by rewrite IH.
Qed.

(** The minutes of a game, date by date, add up to the minutes of the
    game when the dates are all there, once each. *)
Lemma minutes_by_date g (ds : list string) (l : list Session) :
  NoDup ds ->
  Forall (fun s => exists d, isoDateOf (date s) = Ok d /\ d ∈ ds) l ->
  foldr (fun d total => game_minutes g (on_date d l) + total) 0 ds
  = game_minutes g l.
Proof.
  intros Hn. induction 1 as [|s l (d0 & Hd0 & Hin) Hl IH].
  - rewrite game_minutes_nil. clear Hn. induction ds as [|d ds IHd]; [done|].
    simpl. rewrite IHd. done.
  - set (c := if decide (game s = g) then or_zero (durationMinutes s) else 0).
    assert (Hsplit :
      forall ds',
        foldr (fun d total => game_minutes g (on_date d (s :: l)) + total) 0 ds'
        = foldr (fun d total =>
                   (if decide (isoDateOf (date s) = Ok d) then c else 0) + total)
                0 ds'
          + foldr (fun d total => game_minutes g (on_date d l) + total) 0 ds').
    { induction ds' as [|d ds' IHd]; [done|].
      simpl. rewrite IHd, on_date_cons.
      destruct (decide (isoDateOf (date s) = Ok d)).
      - rewrite game_minutes_cons. fold c. lia.
      - lia. }
    rewrite Hsplit, IH, (sum_one_date _ c ds d0 Hd0 Hn Hin).
    by rewrite game_minutes_cons.
Qed.

Lemma daily_get_exact dailyData l g d :
  daily_exact dailyData l ->
  daily_get dailyData g d
  = match on_date d l with
    | [] => None
    | x => game_entry g x
    end.
Proof.
  intros Hinv. unfold daily_get. rewrite (Hinv d).
  destruct (on_date d l) as [|s x]; [done|].
  simpl. apply games_of_entry.
Qed.

Lemma data_sum_known dailyData l g (ds : list string) :
  daily_exact dailyData l ->
  g = "valorant" \/ g = "kovaaks" ->
  Forall (fun d => on_date d l <> []) ds ->
  data_sum (map (daily_get dailyData g) ds)
  = foldr (fun d total => game_minutes g (on_date d l) + total) 0 ds.
Proof.
  intros Hinv Hg. induction 1 as [|d ds Hd Hds IH]; [done|].
  simpl. rewrite IH, (daily_get_exact _ l) by done.
  destruct (on_date d l) as [|s x] eqn:Hx; [done|].
  unfold game_entry. by rewrite bool_decide_eq_true_2.
Qed.

Lemma labels_cover dailyData l :
  daily_exact dailyData l ->
  Forall date_readable l ->
  NoDup (sorted_keys dailyData)
  /\ Forall (fun d => on_date d l <> []) (sorted_keys dailyData)
  /\ Forall (fun s => exists d, isoDateOf (date s) = Ok d
                               /\ d ∈ sorted_keys dailyData) l.
Proof.
  intros Hinv Hr. split; [|split].
  - unfold sorted_keys. rewrite merge_sort_Permutation.
    apply NoDup_fst_map_to_list.
  - apply Forall_forall. intros d Hd.
    apply elem_of_sorted_keys in Hd as [b Hb].
    rewrite (Hinv d) in Hb. by destruct (on_date d l).
  - apply Forall_forall. intros s Hs.
    rewrite Forall_forall in Hr.
    destruct (isoDateOf_readable s (Hr s Hs)) as [d Hd].
    exists d. split; [done|]. apply elem_of_sorted_keys.
    rewrite (Hinv d).
    assert (Hin : s ∈ on_date d l).
    { unfold on_date. apply list_elem_of_filter. by split. }
    destruct (on_date d l); [by apply elem_of_nil in Hin|]. simpl. eauto.
Qed.

End DailyTotals.

(** X4.  When every date can be read, the values the chart shows at a
    date are the [valorant] and [kovaaks] entries of the [gameBreakdown]
    that [generateSummaryStats] computes for the sessions of that date. *)
Theorem chart_column_is_day_summary `{JsRuntime} (sessions : list Session) :
  Forall date_readable sessions ->
  exists c,
    prepareDailyTrendData sessions = Ok c
    /\ forall i d, labels c !! i = Some d ->
         exists st,
           generateSummaryStats (on_date d sessions) = Ok st
           /\ valorant_data c !! i = Some (gameBreakdown st !! "valorant")
           /\ kovaaks_data c !! i = Some (gameBreakdown st !! "kovaaks").
Proof.
  intros Hr. destruct (dailyDataOf_exact sessions Hr) as (dd & Hrun & Hdd).
  exists (chart_of dd).
  split; [unfold prepareDailyTrendData; by rewrite Hrun|].
  intros i d Hi.
  destruct (generateSummaryStats_fields (on_date d sessions))
    as (st & Hst & _ & _ & Hg & _).
  exists st. split; [done|].
  assert (Hd : d ∈ sorted_keys dd) by (apply list_elem_of_lookup; eauto).
  apply elem_of_sorted_keys in Hd as [b Hb].
  unfold valorant_data, kovaaks_data. simpl in *.
  rewrite !list_lookup_fmap, Hi. simpl. unfold daily_get. rewrite Hb. simpl.
  rewrite (Hdd d) in Hb. rewrite Hg, <- games_of_summary.
  destruct (on_date d sessions); [done|]. by injection Hb as <-.
Qed.

Lemma chart_column_is_day_summary_witness :
  Forall date_readable (Examples.scenario ++ Examples.apex)
  /\ exists c st,
       prepareDailyTrendData (Examples.scenario ++ Examples.apex) = Ok c
       /\ generateSummaryStats
            (on_date "2024-01-01" (Examples.scenario ++ Examples.apex)) = Ok st
       /\ valorant_data c !! 0%nat = Some (gameBreakdown st !! "valorant").
Proof.
  assert (Hr : Forall date_readable (Examples.scenario ++ Examples.apex))
    by (repeat constructor; vm_compute; eauto).
  split; [exact Hr|].
  destruct (@chart_column_is_day_summary RefClock.runtime _ Hr)
    as (c & Hc & Hcol).
  assert (Hl : labels c !! 0%nat = Some "2024-01-01").
  { vm_compute in Hc. injection Hc as <-. reflexivity. }
  destruct (Hcol 0%nat "2024-01-01" Hl) as (st & Hst & Hv & _).
  exists c, st. split; [exact Hc|]. split; [exact Hst|exact Hv].
Defined.

(** X5.  When every date can be read, the chart has one value per label
    in each of its two rows, and the values of a row add up to the
    minutes of all the sessions of that game: no minute of a valorant or
    kovaaks session is lost or counted twice. *)
Theorem chart_rows_add_up `{JsRuntime} (sessions : list Session) :
  Forall date_readable sessions ->
  exists c,
    prepareDailyTrendData sessions = Ok c
    /\ length (valorant_data c) = length (labels c)
    /\ length (kovaaks_data c) = length (labels c)
    /\ data_sum (valorant_data c) = game_minutes "valorant" sessions
    /\ data_sum (kovaaks_data c) = game_minutes "kovaaks" sessions.
Proof.
  intros Hr. destruct (dailyDataOf_exact sessions Hr) as (dd & Hrun & Hdd).
  destruct (labels_cover dd sessions Hdd Hr) as (Hn & Hne & Hcov).
  exists (chart_of dd).
  split; [unfold prepareDailyTrendData; by rewrite Hrun|].
  unfold valorant_data, kovaaks_data. simpl. rewrite !length_map.
  split; [done|]. split; [done|]. split.
  - rewrite (data_sum_known dd sessions) by (done || by left).
    by apply minutes_by_date.
  - rewrite (data_sum_known dd sessions) by (done || by right).
    by apply minutes_by_date.
Qed.

Lemma chart_rows_add_up_witness :
  Forall date_readable (Examples.scenario ++ Examples.apex)
  /\ exists c,
       prepareDailyTrendData (Examples.scenario ++ Examples.apex) = Ok c
       /\ data_sum (valorant_data c) = 30
       /\ data_sum (kovaaks_data c) = 45.
Proof.
  assert (Hr : Forall date_readable (Examples.scenario ++ Examples.apex))
    by (repeat constructor; vm_compute; eauto).
  split; [exact Hr|].
  destruct (@chart_rows_add_up RefClock.runtime _ Hr)
    as (c & Hc & _ & _ & Hv & Hk).
  exists c. split; [exact Hc|]. split; [exact Hv|exact Hk].
Defined.

(** X6.  [prepareDailyTrendData] does not depend on the order of the
    sessions: on two collections with the same records it returns the
    same chart, or throws the same [RangeError] when a date cannot be
    read. *)
Theorem chart_order_independent `{JsRuntime} (l1 l2 : list Session) :
  l1 ≡ₚ l2 -> prepareDailyTrendData l1 = prepareDailyTrendData l2.
Proof.
  intros Hp. unfold prepareDailyTrendData.
  destruct (decide (Forall date_readable l1)) as [Hr1|Hn1].
  - assert (Hr2 : Forall date_readable l2) by (by rewrite <- Hp).
    destruct (dailyDataOf_exact l1 Hr1) as (dd1 & -> & Hdd1).
    destruct (dailyDataOf_exact l2 Hr2) as (dd2 & -> & Hdd2).
    simpl. do 2 f_equal. apply map_eq. intros d.
    rewrite (Hdd1 d), (Hdd2 d). apply bucket_on_perm. by apply on_date_perm.
  - assert (Hn2 : ~ Forall date_readable l2) by (by rewrite <- Hp).
    unfold dailyDataOf. by rewrite !forEachR_daily_unreadable.
Qed.

Lemma chart_order_independent_witness :
  Examples.scenario ≡ₚ reverse Examples.scenario
  /\ prepareDailyTrendData Examples.scenario
     = prepareDailyTrendData (reverse Examples.scenario).
Proof.
  assert (Hp : Examples.scenario ≡ₚ reverse Examples.scenario)
    by (symmetry; apply reverse_Permutation).
  split; [exact Hp|].
  exact (@chart_order_independent RefClock.runtime _ _ Hp).
Defined.

(* ===================================================================== *)
(** ** The order of the labels is the order of the days *)
(* ===================================================================== *)

Lemma ascii_compare_digit_val a b :
  Ascii.compare a b = (RefClock.digit_val a ?= RefClock.digit_val b).
Proof.
  unfold Ascii.compare, RefClock.digit_val.
  rewrite <- N2Z.inj_compare.
  destruct (Z.compare_spec (Z.of_N (N_of_ascii a)) (Z.of_N (N_of_ascii b)));
    symmetry; [apply Z.compare_eq_iff|apply Z.compare_lt_iff
              |apply Z.compare_gt_iff]; lia.
Qed.

Lemma is_digit_val c :
  is_digit c = true -> 0 <= RefClock.digit_val c <= 9.
Proof.
  unfold is_digit, RefClock.digit_val. intros Hd.
  apply andb_true_iff in Hd as [H1 H2].
  apply N.leb_le in H1, H2. lia.
Qed.

(** The shape of a string that matches [/^\d{4}-\d{2}-\d{2}$/]. *)
Lemma matches_ymd_shape s :
  matches_ymd s = true ->
  exists y1 y2 y3 y4 m1 m2 d1 d2,
    s = String y1 (String y2 (String y3 (String y4 (String "-"
          (String m1 (String m2 (String "-"
            (String d1 (String d2 EmptyString)))))))))
    /\ Forall (fun c => 0 <= RefClock.digit_val c <= 9)
         [y1; y2; y3; y4; m1; m2; d1; d2].
Proof.
  unfold matches_ymd. intros Hm.
  rewrite <- (string_of_list_ascii_of_string s).
  destruct (list_ascii_of_string s)
    as [|y1 [|y2 [|y3 [|y4 [|c1 [|m1 [|m2 [|c2 [|d1 [|d2 [|? ?]]]]]]]]]]];
    try discriminate Hm.
  apply andb_true_iff in Hm as [Hm Hc2].
  apply andb_true_iff in Hm as [Hd Hc1].
  apply Ascii.eqb_eq in Hc1, Hc2. subst c1 c2.
  exists y1, y2, y3, y4, m1, m2, d1, d2. split; [done|].
  simpl in Hd. repeat (apply andb_true_iff in Hd as [?%is_digit_val Hd]).
  repeat (apply Forall_cons; split; [assumption|]). apply Forall_nil; exact I.
Qed.

Ltac compare_next :=
  match goal with
  | |- context [Z.compare ?a ?b] => destruct (Z.compare_spec a b); simpl
  end.

(** X7.  On dates of the form [YYYY-MM-DD] the order in which [sort()]
    puts the labels is the order of the calendar: one date sorts before
    another exactly when its year, month and day, read as the number
    [YYYYMMDD], are smaller. *)
Theorem label_order_is_calendar_order (s1 s2 : string) :
  matches_ymd s1 = true -> matches_ymd s2 = true ->
  (str_lt s1 s2 <-> ymd_key s1 < ymd_key s2).
Proof.
  intros (a1 & a2 & a3 & a4 & a5 & a6 & a7 & a8 & -> & Ha)%matches_ymd_shape
         (b1 & b2 & b3 & b4 & b5 & b6 & b7 & b8 & -> & Hb)%matches_ymd_shape.
  repeat match goal with
         | H : Forall _ (_ :: _) |- _ => apply Forall_cons in H as [? H]
         end.
  unfold str_lt, String.ltb, ymd_key. simpl.
  rewrite !ascii_compare_digit_val.
  change (RefClock.digit_val "-" ?= RefClock.digit_val "-") with Eq.
  cbv iota.
  repeat compare_next; split; intros; (done || lia).
Qed.

Lemma label_order_is_calendar_order_witness :
  matches_ymd "2023-12-31" = true /\ matches_ymd "2024-01-01" = true
  /\ str_lt "2023-12-31" "2024-01-01"
  /\ ymd_key "2023-12-31" < ymd_key "2024-01-01".
Proof.
  assert (H1 : matches_ymd "2023-12-31" = true) by reflexivity.
  assert (H2 : matches_ymd "2024-01-01" = true) by reflexivity.
  assert (Hk : ymd_key "2023-12-31" < ymd_key "2024-01-01")
    by (vm_compute; reflexivity).
  split; [exact H1|]. split; [exact H2|]. split; [|exact Hk].
  exact (proj2 (label_order_is_calendar_order _ _ H1 H2) Hk).
Defined.

(* ===================================================================== *)
(** ** Loops that stop at the first exception *)
(* ===================================================================== *)

Lemma mapM_cons {A B} (f : A -> Result B) x l :
  mapM f (x :: l)
  = bindR (f x) (fun y => bindR (mapM f l) (fun k => Ok (y :: k))).
Proof. reflexivity. Qed.

Lemma mapM_ok {A B} (f : A -> Result B) (g : A -> B) l :
  Forall (fun x => f x = Ok (g x)) l -> mapM f l = Ok (map g l).
Proof.
  induction 1 as [|x l Hx _ IH]; [done|].
  by rewrite mapM_cons, Hx, IH.
Qed.


Lemma mapM_length {A B} (f : A -> Result B) l k :
  mapM f l = Ok k -> length k = length l.
Proof.
  revert k. induction l as [|x l IH]; intros k.
  - by intros [= <-].
  - rewrite mapM_cons. destruct (f x) as [y|e]; [|done]. simpl.
    destruct (mapM f l) as [k'|e]; [|done]. simpl.
    intros [= <-]. simpl. by rewrite (IH k' eq_refl).
Qed.

Lemma mapM_Forall {A B} (f : A -> Result B) (P : B -> Prop) l k :
  (forall x y, f x = Ok y -> P y) ->
  mapM f l = Ok k -> Forall P k.
Proof.
  intros HP. revert k. induction l as [|x l IH]; intros k.
  - intros [= <-]. constructor.
  - rewrite mapM_cons. destruct (f x) as [y|e] eqn:Hx; [|done]. simpl.
    destruct (mapM f l) as [k'|e]; [|done]. simpl.
    intros [= <-]. constructor; eauto.
Qed.

(** The loop throws [e] exactly when some element does, provided [e] is
    the only exception the body can throw. *)
Lemma mapM_throws {A B} (f : A -> Result B) (bad : A -> bool) (e : JsError) l :
  (forall x, bad x = true -> f x = Throw e) ->
  (forall x, bad x = false -> exists y, f x = Ok y) ->
  if bool_decide (Exists (fun x => bad x = true) l)
  then mapM f l = Throw e
  else exists k, mapM f l = Ok k.
Proof.
  intros Hbad Hgood. induction l as [|x l IH].
  - rewrite bool_decide_eq_false_2 by (rewrite Exists_nil; tauto). by exists [].
  - rewrite mapM_cons. destruct (bad x) eqn:Hx.
    + rewrite bool_decide_eq_true_2 by (by left). by rewrite (Hbad x Hx).
    + destruct (Hgood x Hx) as [y ->]. simpl.
      destruct (bool_decide (Exists (fun x => bad x = true) l)) eqn:Hl.
      * apply bool_decide_eq_true in Hl.
        rewrite bool_decide_eq_true_2 by (by right). by rewrite IH.
      * apply bool_decide_eq_false in Hl.
        rewrite bool_decide_eq_false_2.
        -- destruct IH as [k ->]. by eexists.
        -- rewrite Exists_cons. intros [?|?]; [congruence|done].
Qed.

(* ===================================================================== *)
(** ** [server.js]: saving *)
(* ===================================================================== *)

Section Save.
Context `{JsonWriter}.




End Save.

(* ===================================================================== *)
(** ** [server.js]: loading *)
(* ===================================================================== *)

Section Load.
Context `{JsRuntime}.

Lemma load_date_unreadable d :
  unreadable_date d = true -> load_date d = Throw RangeError.
Proof.
  unfold unreadable_date, load_date, isoDateOf. intros Hu.
  apply andb_true_iff in Hu as [Hu Hp]. apply andb_true_iff in Hu as [-> ->].
  apply bool_decide_eq_true in Hp. by rewrite Hp.
Qed.

Lemma load_date_readable d :
  unreadable_date d = false ->
  load_date d = Ok d /\ canonical_date d = true
  \/ exists t, Date_parse d = Some t /\ load_date d = Ok (isoDateAt t).
Proof.
  unfold unreadable_date, load_date, canonical_date, isoDateOf, isoDateAt.
  destruct (str_truthy d); [|by left].
  destruct (matches_ymd d); [by left|]. simpl.
  destruct (Date_parse d) as [t|] eqn:Hp; [|by rewrite bool_decide_eq_true_2].
  intros _. right. by exists t.
Qed.


Lemma load_row_unreadable r :
  unreadable_date (row_date r) = true -> load_row r = Throw RangeError.
Proof. intros Hu. unfold load_row. by rewrite (load_date_unreadable _ Hu). Qed.

Lemma load_row_readable r :
  unreadable_date (row_date r) = false -> exists s, load_row r = Ok s.
Proof.
  intros Hu. unfold load_row.
  destruct (load_date_readable _ Hu) as [[-> _]|(t & _ & ->)]; by eexists.
Qed.

(** X9.  The load answers with every row or with none: it fails, with
    the [RangeError] of [toISOString], exactly when some row holds a date
    that is neither empty, nor of the form [YYYY-MM-DD], nor readable by
    [Date]; otherwise it returns one session per row, and the date of
    each is empty, of the form [YYYY-MM-DD], or the day of a time
    value. *)
Theorem load_is_all_or_nothing (rows : list Row) :
  if bool_decide (Exists (fun r => unreadable_date (row_date r) = true) rows)
  then load_endpoint rows = Throw RangeError
  else exists sessions,
         load_endpoint rows = Ok sessions
         /\ length sessions = length rows
         /\ Forall (fun s => canonical_date (date s) = true
                             \/ exists t, date s = isoDateAt t) sessions.
Proof.
  unfold load_endpoint.
  pose proof (mapM_throws load_row (fun r => unreadable_date (row_date r))
                RangeError rows load_row_unreadable load_row_readable) as Hm.
  destruct (bool_decide _); [done|].
  destruct Hm as [k Hk]. exists k. split; [done|].
  split; [by apply mapM_length in Hk|].
  revert Hk. apply mapM_Forall. intros r s. unfold load_row.
  destruct (unreadable_date (row_date r)) eqn:Hu.
  - by rewrite (load_date_unreadable _ Hu).
  - destruct (load_date_readable _ Hu) as [[-> Hc]|(t & _ & ->)];
      simpl; intros [= <-]; simpl; eauto.
Qed.

Context `{JsonWriter}.






End Load.



(* ===================================================================== *)
(** ** [SQLiteHandler.loadFromDatabase] on what the server sends *)
(* ===================================================================== *)

Section ClientPass.
Context `{JsRuntime}.

Lemma client_load_step_normal (s : Session) :
  canonical_date (date s) = true -> parsed_metadata s ->
  client_load_step s = Ok s.
Proof.
  unfold canonical_date, parsed_metadata, client_load_step.
  intros Hc Hm.
  assert (Hd : (if str_truthy (date s)
                then if matches_ymd (date s) then Ok (date s)
                     else isoDateOf (date s)
                else Ok (date s)) = Ok (date s)).
  { destruct (str_truthy (date s)); [|done]. simpl in Hc. by rewrite Hc. }
  rewrite Hd. simpl. f_equal.
  destruct s as [g d st e dm md]. simpl in *. f_equal.
  destruct md as [|text|o]; [done| |done].
  by rewrite (Hm text eq_refl).
Qed.

(** X12.  The client's pass changes nothing in a collection whose dates
    are empty or of the form [YYYY-MM-DD] and whose metadata values are
    not strings still to be parsed. *)
Theorem client_pass_keeps_normal (sessions : list Session) :
  Forall (fun s => canonical_date (date s) = true) sessions ->
  Forall parsed_metadata sessions ->
  loadFromDatabase_pass sessions = Ok sessions.
Proof.
  intros Hc Hm. unfold loadFromDatabase_pass.
  rewrite <- (map_id sessions) at 2. apply mapM_ok.
  rewrite Forall_forall in *. intros s Hs.
  apply client_load_step_normal; auto.
Qed.

End ClientPass.

Lemma client_pass_keeps_normal_witness :
  Forall (fun s => canonical_date (date s) = true) Examples.scenario
  /\ Forall parsed_metadata Examples.scenario
  /\ loadFromDatabase_pass Examples.scenario = Ok Examples.scenario.
Proof.
  assert (Hc : Forall (fun s => canonical_date (date s) = true)
                 Examples.scenario)
    by (repeat constructor).
  assert (Hm : Forall parsed_metadata Examples.scenario)
    by (apply Forall_cons_2; [|apply Forall_cons_2; [|apply Forall_nil_2]];
        intros text Ht; discriminate Ht).
  exact (conj Hc (conj Hm (client_pass_keeps_normal _ Hc Hm))).
Defined.

(* ===================================================================== *)
(** ** [server.js]: the name of an uploaded file *)
(* ===================================================================== *)

Lemma split_on_nonempty sep s : split_on sep s <> [].
Proof.
  destruct s as [|c s]; simpl; [done|].
  destruct (Ascii.eqb c sep); [done|]. by destruct (split_on sep s).
Qed.

Lemma join_split sep s : join_with sep (split_on sep s) = s.
Proof.
  induction s as [|c s IH]; [done|]. simpl.
  destruct (Ascii.eqb_spec c sep) as [->|Hc].
  - pose proof (split_on_nonempty sep s).
    destruct (split_on sep s) as [|p ps] eqn:Hs; [done|].
    change (join_with sep (EmptyString :: p :: ps))
      with (String sep (join_with sep (p :: ps))).
    by rewrite IH.
  - pose proof (split_on_nonempty sep s).
    destruct (split_on sep s) as [|p ps] eqn:Hs; [done|].
    rewrite <- IH. by destruct ps.
Qed.

Lemma split_on_pieces sep s :
  Forall (fun piece => has_char sep piece = false) (split_on sep s).
Proof.
  induction s as [|c s IH]; simpl; [by repeat constructor|].
  destruct (Ascii.eqb c sep) eqn:Hc; [by constructor|].
  destruct (split_on sep s) as [|p ps]; [repeat constructor; simpl|].
  - by rewrite Hc.
  - apply Forall_cons in IH as [Hp Hps]. constructor; [|done].
    simpl. by rewrite Hc.
Qed.

Lemma str_app_assoc (a b c : string) : (a +:+ b) +:+ c = a +:+ (b +:+ c).
Proof.
  induction a as [|x a IH]; [done|].
  change (String x ((a +:+ b) +:+ c) = String x (a +:+ (b +:+ c))).
  by rewrite IH.
Qed.

Lemma join_snoc sep dirs f :
  dirs <> [] ->
  join_with sep (dirs ++ [f]) = join_with sep dirs +:+ String sep f.
Proof.
  induction dirs as [|d dirs IH]; [done|]. intros _.
  destruct dirs as [|d' dirs]; [done|].
  change (join_with sep ((d :: d' :: dirs) ++ [f]))
    with (d +:+ String sep (join_with sep ((d' :: dirs) ++ [f]))).
  rewrite IH by done.
  change (join_with sep (d :: d' :: dirs))
    with (d +:+ String sep (join_with sep (d' :: dirs))).
  rewrite str_app_assoc. done.
Qed.

(** X13.  An upload is stored under what follows the last slash of its
    original name: the stored name holds no slash, and the original name
    is the stored name, or a prefix, a slash and the stored name. *)
Theorem upload_filename_last_segment (originalname : string) :
  exists f,
    upload_filename originalname = Some f
    /\ has_char "/" f = false
    /\ (originalname = f
        \/ exists dir, originalname = dir +:+ String "/" f).
Proof.
  unfold upload_filename, pop.
  pose proof (split_on_nonempty "/" originalname) as Hne.
  pose proof (split_on_pieces "/" originalname) as Hp.
  pose proof (join_split "/" originalname) as Hj.
  destruct (exists_last Hne) as (ps & p & Heq). rewrite Heq in *.
  exists p. rewrite last_snoc. split; [done|].
  apply Forall_app in Hp as [_ Hp]. apply Forall_cons in Hp as [Hp _].
  split; [done|].
  destruct ps as [|d ds]; [by left|].
  right. exists (join_with "/" (d :: ds)).
  by rewrite <- Hj, join_snoc.
Qed.

(* ===================================================================== *)
(** ** [ExcelHandler.generateSummaryStats] *)
(* ===================================================================== *)

Lemma excel_fold l : forall acc,
  fold_left Excel.step l (acc_total acc, acc_games acc)
  = (acc_total (fold_left summary_next l acc),
     acc_games (fold_left summary_next l acc)).
Proof.
  induction l as [|s l IH]; intros acc; [done|].
  simpl. rewrite <- IH. done.
Qed.

(** X14.  The summary of the Excel handler is the summary of the SQLite
    handler without the two metadata breakdowns: count, total, average
    and minutes per game are the same on every collection, and the
    SQLite one never throws. *)
Theorem excel_summary_agrees (sessions : list Session) :
  exists st,
    generateSummaryStats sessions = Ok st
    /\ Excel.totalSessions (Excel.generateSummaryStats sessions)
       = totalSessions st
    /\ Excel.totalTimeMinutes (Excel.generateSummaryStats sessions)
       = totalTimeMinutes st
    /\ Excel.avgSessionMinutes (Excel.generateSummaryStats sessions)
       = avgSessionMinutes st
    /\ Excel.gameBreakdown (Excel.generateSummaryStats sessions)
       = gameBreakdown st.
Proof.
  rewrite generateSummaryStats_eq. eexists. split; [reflexivity|].
  destruct sessions as [|s l]; [done|].
  unfold Excel.generateSummaryStats.
  change (Nat.eqb (length (s :: l)) 0) with false. cbv iota.
  change (0, zeroGames) with (acc_total summary_init, acc_games summary_init).
  rewrite excel_fold. done.
Qed.

(* ===================================================================== *)
(** ** [start-app.js]: waiting for the server *)
(* ===================================================================== *)

Lemma wait_loop_spec probe left : forall attempts,
  (forall k, (k < attempts)%nat -> probe k = false) ->
  let r := wait_loop probe left attempts in
  (forall k, (k < snd r)%nat -> probe k = false)
  /\ (if fst r then probe (snd r) = true /\ (snd r < attempts + left)%nat
      else snd r = (attempts + left)%nat).
Proof.
  induction left as [|left IH]; intros attempts Hbefore; simpl.
  - split; [done|lia].
  - destruct (probe attempts) eqn:Hp; simpl.
    + split; [done|]. split; [done|lia].
    + destruct (IH (S attempts)) as [H1 H2].
      { intros k Hk. destruct (decide (k = attempts)) as [->|]; [done|].
        apply Hbefore. lia. }
      split; [done|].
      destruct (fst (wait_loop probe left (S attempts))).
      * split; [tauto|lia].
      * lia.
Qed.

(** X15.  [waitForServer] reports the server ready exactly when one of
    the first ten probes succeeds; the number of one-second waits it has
    made is then the number of probes that failed before the first
    success, and ten when it gives up. *)
Theorem waitForServer_first_success (probe : nat -> bool) :
  let isReady := fst (waitForServer probe) in
  let attempts := snd (waitForServer probe) in
  (forall k, (k < attempts)%nat -> probe k = false)
  /\ (if isReady then probe attempts = true /\ (attempts < 10)%nat
      else attempts = 10%nat)
  /\ (isReady = true <-> exists k, (k < 10)%nat /\ probe k = true).
Proof.
  unfold waitForServer, maxAttempts.
  destruct (wait_loop_spec probe 10 0) as [H1 H2]; [lia|].
  simpl plus in H2. split; [exact H1|]. split; [exact H2|].
  destruct (fst (wait_loop probe 10 0)).
  - split; [|done]. intros _. exists (snd (wait_loop probe 10 0)).
    destruct H2 as [Hp Hlt]. split; [lia|exact Hp].
  - split; [done|]. intros (k & Hk & Hp). rewrite H1 in Hp; [done|lia].
Qed.

(* ===================================================================== *)
(** ** The tracker's collection *)
(* ===================================================================== *)



(* ===================================================================== *)
(** ** The displays *)
(* ===================================================================== *)

(** The two-character text of a number below 100 and the number it reads
    as, checked on each of them. *)
Lemma two_characters (n : Z) :
  0 <= n < 100 ->
  String.length (padStart 2 "0" (Number_toString n)) = 2%nat
  /\ read_number (padStart 2 "0" (Number_toString n)) = Some n.
Proof.
  intros Hn.
  assert (Hall : forallb (fun k =>
                   let n := Z.of_nat k in
                   let s := padStart 2 "0" (Number_toString n) in
                   Nat.eqb (String.length s) 2
                   && bool_decide (read_number s = Some n))
                   (seq 0 100) = true) by (vm_compute; reflexivity).
  rewrite forallb_forall in Hall.
  specialize (Hall (Z.to_nat n)). rewrite Z2Nat.id in Hall by lia.
  assert (Hin : In (Z.to_nat n) (seq 0 100)) by (apply in_seq; lia).
  apply Hall in Hin. apply andb_true_iff in Hin as [Hl Hr].
  apply Nat.eqb_eq in Hl. apply bool_decide_eq_true in Hr. done.
Qed.

(** X18.  For an elapsed time that is not negative the timer shows the
    whole seconds of it split into hours, minutes below 60 and seconds
    below 60; minutes and seconds are written with two characters that
    read back as the numbers, and so are the hours below 100. *)
Theorem timer_display_splits_seconds (elapsed : Z) :
  0 <= elapsed ->
  let d := updateTimerDisplay elapsed in
  3600 * hours_number d + 60 * minutes_number d + seconds_number d
  = elapsed / 1000
  /\ 0 <= hours_number d
  /\ 0 <= minutes_number d < 60
  /\ 0 <= seconds_number d < 60
  /\ String.length (minutes_text d) = 2%nat
  /\ read_number (minutes_text d) = Some (minutes_number d)
  /\ String.length (seconds_text d) = 2%nat
  /\ read_number (seconds_text d) = Some (seconds_number d)
  /\ (elapsed < 360000000 ->
      String.length (hours_text d) = 2%nat
      /\ read_number (hours_text d) = Some (hours_number d)).
Proof.
  intros He. unfold updateTimerDisplay, Math_floor_div, js_rem. simpl.
  set (ts := elapsed / 1000).
  assert (Hts : 0 <= ts) by (apply Z.div_pos; lia).
  rewrite !Z.rem_mod_nonneg by lia.
  assert (Hm : 0 <= ts mod 3600 / 60 < 60)
    by (split; [apply Z.div_pos; [apply Z.mod_pos_bound|]; lia
               |apply Z.div_lt_upper_bound; [lia|apply Z.mod_pos_bound; lia]]).
  assert (Hs : 0 <= ts mod 60 < 60) by (apply Z.mod_pos_bound; lia).
  assert (Hh : 0 <= ts / 3600) by (apply Z.div_pos; lia).
  split.
  { clear Hm Hs Hh. clearbody ts.
    Z.to_euclidean_division_equations. lia. }
  split; [done|]. split; [done|]. split; [done|].
  destruct (two_characters (ts mod 3600 / 60)) as [? ?]; [lia|].
  destruct (two_characters (ts mod 60)) as [? ?]; [lia|].
  do 4 (split; [done|]).
  intros Hlt. apply two_characters. split; [done|].
  apply Z.div_lt_upper_bound; [lia|].
  subst ts. apply Z.div_lt_upper_bound; lia.
Qed.

Lemma timer_display_splits_seconds_witness :
  0 <= 3725999
  /\ hours_text (updateTimerDisplay 3725999) = "01"
  /\ minutes_text (updateTimerDisplay 3725999) = "02"
  /\ seconds_text (updateTimerDisplay 3725999) = "05"
  /\ 3600 * hours_number (updateTimerDisplay 3725999)
     + 60 * minutes_number (updateTimerDisplay 3725999)
     + seconds_number (updateTimerDisplay 3725999) = 3725999 / 1000.
Proof.
  assert (He : 0 <= 3725999) by lia.
  split; [exact He|]. do 3 (split; [reflexivity|]).
  exact (proj1 (timer_display_splits_seconds 3725999 He)).
Defined.

(** X19.  The hours and minutes shown for a number of minutes add up to
    it when it is not negative, the minutes then below 60.  For a
    negative number the two parts have opposite signs and add up to the
    number less 60, unless it is a multiple of 60. *)
Theorem hours_minutes_split (n : Z) :
  let h := fst (hours_minutes n) in
  let m := snd (hours_minutes n) in
  (0 <= n -> 60 * h + m = n /\ 0 <= m < 60)
  /\ (n < 0 -> -60 < m <= 0
               /\ 60 * h + m = if n mod 60 =? 0 then n else n - 60).
Proof.
  unfold hours_minutes, Math_floor_div, js_rem.
  change (fst (n / 60, Z.rem n 60)) with (n / 60).
  change (snd (n / 60, Z.rem n 60)) with (Z.rem n 60).
  cbv zeta. split; intros Hn.
  - Z.to_euclidean_division_equations. lia.
  - destruct (Z.eqb_spec (n mod 60) 0) as [H0|H0];
      Z.to_euclidean_division_equations; lia.
Qed.

(* ===================================================================== *)
(** ** Today's sessions *)
(* ===================================================================== *)

Section Today.
Context `{JsRuntime}.

Lemma filterR_total {A} (f : A -> Result bool) (g : A -> bool) l :
  Forall (fun x => f x = Ok (g x)) l -> filterR f l = Ok (List.filter g l).
Proof.
  induction 1 as [|x l Hx _ IH]; [done|].
  simpl. rewrite Hx, IH. simpl. by destruct (g x).
Qed.

Lemma completed_fold today l : forall total,
  fold_left
    (fun total session =>
       if String.eqb (game session) "kovaaks" && String.eqb (date session) today
       then total + or_zero (durationMinutes session)
       else total)
    l total
  = total
    + game_minutes "kovaaks"
        (List.filter (fun s => String.eqb (date s) today) l).
Proof.
  induction l as [|s l IH]; intros total.
  - simpl. rewrite game_minutes_nil. lia.
  - simpl. rewrite IH.
    destruct (String.eqb_spec (date s) today) as [Hd|Hd].
    + rewrite game_minutes_cons.
      destruct (String.eqb_spec (game s) "kovaaks") as [Hg|Hg]; simpl.
      * rewrite decide_True by done. lia.
      * rewrite decide_False by done. lia.
    + rewrite andb_false_r. done.
Qed.

(** X20.  On a collection whose dates are of the form [YYYY-MM-DD] the
    sessions the statistics of today are made of are those dated with
    the day of the clock reading, in order, and the kovaaks minutes the
    alarm counts for the completed sessions are the kovaaks minutes of
    these same sessions. *)
Theorem today_sessions_are_alarm_sessions (now : Z) (sessions : list Session) :
  Forall (fun s => matches_ymd (date s) = true) sessions ->
  todaySessions now sessions
  = Ok (List.filter (fun s => String.eqb (date s) (isoDateAt now)) sessions)
  /\ Timer.completedKovaaksMinutes (isoDateAt now) sessions
     = game_minutes "kovaaks"
         (List.filter (fun s => String.eqb (date s) (isoDateAt now)) sessions).
Proof.
  intros Hy. split.
  - unfold todaySessions. apply filterR_total.
    eapply Forall_impl; [exact Hy|]. intros s Hs. simpl in Hs.
    unfold is_today. by rewrite Hs.
  - unfold Timer.completedKovaaksMinutes. by rewrite completed_fold.
Qed.

End Today.

Lemma today_sessions_are_alarm_sessions_witness :
  Forall (fun s => matches_ymd (date s) = true) Stored.two_days
  /\ todaySessions 1704190000000 Stored.two_days
     = Ok [Examples.session "valorant" "2024-01-02" (Some 30) MetaAbsent].
Proof.
  assert (Hy : Forall (fun s => matches_ymd (date s) = true) Stored.two_days)
    by (repeat constructor).
  split; [exact Hy|].
  exact (proj1 (today_sessions_are_alarm_sessions 1704190000000 _ Hy)).
Defined.

(* ===================================================================== *)
(** ** The timer and its controls *)
(* ===================================================================== *)

Module TimerCycle.
Import Timer.

Section Cycle.
Context `{RT : JsRuntime}.

Lemma Controls_initial stored selected : Controls (initial stored selected).
Proof. repeat split. Qed.

Lemma triggerAlarm_controls t :
  let t' := triggerAlarm t in
  startButton_disabled (dom t') = startButton_disabled (dom t)
  /\ gameSelect_disabled (dom t') = gameSelect_disabled (dom t)
  /\ gameSelect_value (dom t') = gameSelect_value (dom t).
Proof. unfold triggerAlarm. destruct (alarmTriggered t); simpl; tauto. Qed.

Lemma updateTimer_controls now t :
  let t' := updateTimer now t in
  startButton_disabled (dom t') = startButton_disabled (dom t)
  /\ gameSelect_disabled (dom t') = gameSelect_disabled (dom t)
  /\ gameSelect_value (dom t') = gameSelect_value (dom t).
Proof.
  unfold updateTimer, checkKovaaksTimeThreshold.
  repeat case_match; try (simpl; tauto).
  match goal with |- context [triggerAlarm ?x] =>
    pose proof (triggerAlarm_controls x) as Hf end.
  simpl in *. tauto.
Qed.

Lemma attach_and_complete_controls m t t' :
  Inv t -> metadataContainer_shown (dom t) = true ->
  attach_and_complete m t = Ok t' -> Controls t'.
Proof.
  intros [_ Hshown] Hs. destruct (Hshown Hs) as (_ & Hi & cur & Hc & _).
  unfold attach_and_complete, completeSession. rewrite Hc. simpl.
  intros [= <-]. unfold Controls. simpl. rewrite Hi. tauto.
Qed.

Lemma Controls_step e t t' :
  Inv t -> Controls t -> enabled e t = true -> handle e t = Ok t' ->
  Controls t'.
Proof.
  intros HI (Hsb & Heb & Hgs & Hti & Hel) Hen Hh.
  pose proof HI as [Hrun Hshown].
  destruct e; simpl in Hen, Hh.
  - (* start *)
    injection Hh as <-. rewrite Hsb in Hen.
    unfold startTimer. destruct (isRunning t) eqn:Hr; [done|].
    unfold Controls. simpl.
    destruct (metadataContainer_shown (dom t)) eqn:Hm.
    + destruct (Hshown eq_refl) as (Hr' & _). congruence.
    + tauto.
  - (* end *)
    rewrite Heb in Hen. unfold showMetadataForm in Hh.
    destruct (isRunning t) eqn:Hr; [|done]. simpl in Hh.
    destruct (currentSession t); [|done]. injection Hh as <-.
    unfold Controls. simpl. rewrite ?Hr in *. rewrite ?Hsb, ?Heb, ?Hgs, ?Hr.
    tauto.
  - (* tick *)
    injection Hh as <-.
    destruct (TimerProps.updateTimer_frame now t)
      as (U1 & U2 & _ & _ & _ & _ & U7 & U8).
    destruct (updateTimer_controls now t) as (V1 & V2 & _).
    unfold Controls. simpl in *. rewrite U1, U2, U7, U8, V1, V2.
    repeat (split; [done|]).
    intros Hr. rewrite Hti, Hr in Hen. done.
  - (* game change *)
    rewrite Hgs in Hen. unfold gameChanged in Hh. simpl in Hh.
    destruct (isRunning t) eqn:Hr; [done|]. injection Hh as <-.
    unfold Controls. simpl. rewrite Hr. tauto.
  - by eapply attach_and_complete_controls.
  - by eapply attach_and_complete_controls.
  - by eapply attach_and_complete_controls.
  - injection Hh as <-. unfold Controls. simpl. tauto.
  - injection Hh as <-. unfold Controls. simpl. tauto.
Qed.

Lemma Reachable_Controls t : Reachable t -> Controls t.
Proof.
  induction 1 as [stored selected|t e t' Hr IH Hen Hh].
  - apply Controls_initial.
  - eapply Controls_step; eauto. by apply TimerProps.Reachable_Inv.
Qed.

(** X21.  In every state the page can be in the controls follow the
    timer: the start button and the game selector are disabled exactly
    while the timer is running, the end button exactly while it is not,
    the interval is scheduled exactly while the timer runs and the
    metadata form is not shown, and a timer that is not running has an
    elapsed time of 0. *)
Theorem controls_follow_timer (t : Tracker) :
  Reachable t ->
  startButton_disabled (dom t) = isRunning t
  /\ endButton_disabled (dom t) = negb (isRunning t)
  /\ gameSelect_disabled (dom t) = isRunning t
  /\ timerInterval t = isRunning t && negb (metadataContainer_shown (dom t))
  /\ (isRunning t = false -> elapsedTime t = 0).
Proof. intros Hr. exact (Reachable_Controls t Hr). Qed.

(** X22.  The game selector can only be changed while the timer is not
    running, so its listener never asks for a confirmation and never
    ends a session: it leaves the tracker as it is, the selector
    showing the new game. *)
Theorem game_change_never_asks (t : Tracker) (g : string) (confirmed : bool)
    (now : Z) :
  Reachable t -> enabled (ChangeGame g confirmed now) t = true ->
  isRunning t = false
  /\ handle (ChangeGame g confirmed now) t = Ok (select_game g t)
  /\ handle (ChangeGame g confirmed now) t
     = handle (ChangeGame g (negb confirmed) now) t.
Proof.
  intros Hr Hen. destruct (Reachable_Controls t Hr) as (_ & _ & Hgs & _).
  simpl in Hen. rewrite Hgs in Hen.
  destruct (isRunning t) eqn:Hrun; [done|].
  split; [done|]. simpl. unfold gameChanged. simpl. by rewrite Hrun.
Qed.

Lemma run_cons_enabled e evs t t1 :
  enabled e t = true -> handle e t = Ok t1 -> run (e :: evs) t = run evs t1.
Proof. intros Hen Hh. simpl. by rewrite Hen, Hh. Qed.

Lemma startTimer_idle now t :
  isRunning t = false ->
  let ts := startTimer now t in
  isRunning ts = true /\ timerInterval ts = true
  /\ currentSession ts
     = Some (newSession (gameSelect_value (dom t)) (isoDateAt now)
               (toISOString now))
  /\ elapsedTime ts = elapsedTime t
  /\ startTime ts = now - elapsedTime t
  /\ sessions ts = sessions t
  /\ endButton_disabled (dom ts) = false
  /\ alarmTriggered ts = false
  /\ alarmPlays ts = alarmPlays t
  /\ alarmSound_playing (dom ts) = alarmSound_playing (dom t)
  /\ alarmNotification_shown (dom ts) = alarmNotification_shown (dom t).
Proof. intros Hr. unfold startTimer. rewrite Hr. simpl. tauto. Qed.

Lemma showMetadataForm_running now t cur :
  isRunning t = true -> currentSession t = Some cur ->
  exists tf,
    showMetadataForm now t = Ok tf
    /\ currentSession tf
       = Some (with_end cur (toISOString now)
                 (Math_round_div (elapsedTime t) 60000))
    /\ sessions tf = sessions t
    /\ metadataContainer_shown (dom tf) = true.
Proof.
  intros Hr Hc. unfold showMetadataForm. rewrite Hr, Hc. simpl.
  eexists. split; [reflexivity|]. simpl. tauto.
Qed.

Lemma complete_record e t cur :
  completes e -> currentSession t = Some cur ->
  exists t',
    handle e t = Ok t'
    /\ sessions t' = sessions t ++ [with_metadata cur
                                      (match e with
                                       | ClickCancel => metadata cur
                                       | _ => entered_metadata e
                                       end)]
    /\ isRunning t' = false /\ elapsedTime t' = 0
    /\ alarmPlays t' = alarmPlays t.
Proof.
  intros Hc Hcur. destruct e; simpl in Hc; try done; simpl;
    unfold saveValorantMetadata, saveKovaaksMetadata, cancelMetadata,
      attach_and_complete, completeSession;
    rewrite Hcur; simpl; eexists; (split; [reflexivity|]); simpl;
    (split; [|done]).
  - done.
  - done.
  - by destruct cur.
Qed.

(** X23.  A whole session, from any state of the page in which the
    timer is not running: a start at [t0], the interval firing at
    [nows], the end button at [t1] and the metadata form saved or
    skipped append exactly one record.  It carries the game the selector
    showed, the day and instant of the start, the instant of the click
    on the end button, the rounded minutes between the start and the
    last tick, and the metadata entered; the timer is then stopped again
    with no elapsed time. *)
Theorem session_cycle_record (t : Tracker) (t0 : Z) (nows : list Z) (t1 : Z)
    (e : Event) :
  Reachable t -> isRunning t = false -> completes e ->
  exists t' cur,
    run (ClickStart t0 :: map Tick nows ++ [ClickEnd t1; e]) t = Ok t'
    /\ sessions t' = sessions t ++ [cur]
    /\ game cur = gameSelect_value (dom t)
    /\ date cur = isoDateAt t0
    /\ session_startTime cur = toISOString t0
    /\ endTime cur = Some (toISOString t1)
    /\ durationMinutes cur
       = Some (Math_round_div (last_reading t0 nows - t0) 60000)
    /\ metadata cur = entered_metadata e
    /\ isRunning t' = false /\ elapsedTime t' = 0.
Proof.
  intros Hr Hrun Hc.
  destruct (Reachable_Controls t Hr) as (Hsb & _ & _ & _ & Hel).
  destruct (startTimer_idle t0 t Hrun)
    as (Sr & Si & Sc & Se & Sst & Sss & Sb & _).
  set (ts := startTimer t0 t) in *.
  destruct (TimerProps.after_ticks_frame nows ts)
    as (Ar & Ai & Ac & Ae & _ & Ass & _ & Ab).
  rewrite Sr in Ar. rewrite Sc in Ac. rewrite Sss in Ass. rewrite Sb in Ab.
  rewrite Se, Sst, (Hel Hrun) in Ae.
  replace (last_reading (0 + (t0 - 0)) nows - (t0 - 0))
    with (last_reading t0 nows - t0) in Ae
    by (replace (0 + (t0 - 0)) with t0 by lia; lia).
  destruct (showMetadataForm_running t1 _ _ Ar Ac)
    as (tf & Hf & Hcf & Hsf & Hmf).
  rewrite Ae in Hcf. rewrite Ass in Hsf.
  destruct (complete_record e tf _ Hc Hcf)
    as (t' & Hh & Hs' & Hr' & He' & _).
  eexists t', _. split.
  { rewrite (run_cons_enabled (ClickStart t0) _ t ts);
      [|by simpl; rewrite Hsb, Hrun|done].
    rewrite TimerProps.run_ticks by done.
    rewrite (run_cons_enabled (ClickEnd t1) _ _ tf);
      [|by simpl; rewrite Ab|done].
    rewrite (run_cons_enabled e _ tf t');
      [done|by destruct e; simpl in Hc; try done; exact Hmf|done]. }
  split; [by rewrite Hs', Hsf|].
  simpl. repeat (split; [done|]).
  split; [by destruct e; simpl in Hc|done].
Qed.

Lemma after_ticks_other_game nows : forall t,
  current_is_kovaaks t = false ->
  alarmPlays (after_ticks nows t) = alarmPlays t
  /\ alarmTriggered (after_ticks nows t) = alarmTriggered t
  /\ alarmSound_playing (dom (after_ticks nows t)) = alarmSound_playing (dom t)
  /\ alarmNotification_shown (dom (after_ticks nows t))
     = alarmNotification_shown (dom t).
Proof.
  induction nows as [|now nows IH]; intros t Hk; [done|].
  assert (Hu : updateTimer now t
    = {| elapsedTime := now - startTime t;
         timerInterval := timerInterval t;
         startTime := startTime t;
         isRunning := isRunning t;
         sessions := sessions t;
         currentSession := currentSession t;
         alarmTriggered := alarmTriggered t;
         alarmPlays := alarmPlays t;
         dom := dom t |}).
  { unfold updateTimer.
    match goal with |- context [checkKovaaksTimeThreshold now ?x] =>
      change (current_is_kovaaks x) with (current_is_kovaaks t) end.
    by rewrite Hk. }
  change (after_ticks (now :: nows) t)
    with (after_ticks nows (updateTimer now t)).
  destruct (IH (updateTimer now t)) as (-> & -> & -> & ->);
    [by rewrite Hu|by rewrite Hu].
Qed.

(** X24.  A session of a game other than kovaaks never sounds the
    alarm: from a state in which the timer is not running and the
    selector shows another game, a start followed by any ticks leaves
    the count of alarms, the sound and the banner as they were, whatever
    the kovaaks minutes of the day are. *)
Theorem other_games_never_alarm (t : Tracker) (t0 : Z) (nows : list Z) :
  Reachable t -> isRunning t = false ->
  gameSelect_value (dom t) <> "kovaaks" ->
  exists t',
    run (ClickStart t0 :: map Tick nows) t = Ok t'
    /\ alarmPlays t' = alarmPlays t
    /\ alarmTriggered t' = false
    /\ alarmSound_playing (dom t') = alarmSound_playing (dom t)
    /\ alarmNotification_shown (dom t') = alarmNotification_shown (dom t).
Proof.
  intros Hr Hrun Hg.
  destruct (Reachable_Controls t Hr) as (Hsb & _).
  destruct (startTimer_idle t0 t Hrun)
    as (_ & Si & Sc & _ & _ & _ & _ & Sa & Sp & Sd1 & Sd2).
  set (ts := startTimer t0 t) in *.
  exists (after_ticks nows ts). split.
  - rewrite (run_cons_enabled (ClickStart t0) _ t ts);
      [|by simpl; rewrite Hsb, Hrun|done].
    rewrite <- (app_nil_r (map Tick nows)).
    by rewrite TimerProps.run_ticks.
  - assert (Hk : current_is_kovaaks ts = false).
    { unfold current_is_kovaaks. rewrite Sc. simpl. by apply String.eqb_neq. }
    destruct (after_ticks_other_game nows _ Hk) as (-> & -> & -> & ->).
    by rewrite Sa, Sp, Sd1, Sd2.
Qed.

(** X25.  Once the completed kovaaks sessions of the day add up to 60
    minutes, every new kovaaks session sounds the alarm at its first
    tick: the threshold is on the minutes of the day, and each start
    clears the latch. *)
Theorem alarm_again_next_session (t : Tracker) (t0 now : Z) :
  Reachable t -> isRunning t = false ->
  gameSelect_value (dom t) = "kovaaks" ->
  t0 <= now ->
  hourlyAlarmThreshold
    <= completedKovaaksMinutes (isoDateAt now) (sessions t) ->
  exists t',
    run [ClickStart t0; Tick now] t = Ok t'
    /\ alarmPlays t' = S (alarmPlays t)
    /\ alarmTriggered t' = true
    /\ alarmSound_playing (dom t') = true
    /\ alarmNotification_shown (dom t') = true.
Proof.
  intros Hr Hrun Hg Hle Hmin.
  destruct (Reachable_Controls t Hr) as (Hsb & _ & _ & _ & Hel).
  destruct (startTimer_idle t0 t Hrun)
    as (_ & Si & Sc & _ & Sst & Sss & _ & Sa & Sp & _).
  set (ts := startTimer t0 t) in *.
  assert (Hk : current_is_kovaaks ts = true)
    by (unfold current_is_kovaaks; rewrite Sc; simpl; by rewrite Hg).
  assert (Hreach : reached_at ts now = true).
  { unfold reached_at, total_at. rewrite Sst, Sss, (Hel Hrun).
    apply Z.leb_le.
    assert (0 <= Math_floor_div (now - (t0 - 0)) 60000)
      by (unfold Math_floor_div; apply Z.div_pos; lia).
    lia. }
  destruct (TimerProps.updateTimer_alarm now ts Hk) as (Ha & Hp & Hd).
  exists (updateTimer now ts). split.
  - rewrite (run_cons_enabled (ClickStart t0) _ t ts);
      [|by simpl; rewrite Hsb, Hrun|done].
    by rewrite (run_cons_enabled (Tick now) _ ts (updateTimer now ts)).
  - rewrite Ha, Hp, Hreach, Sa, Sp. simpl.
    split; [lia|]. split; [done|]. by apply Hd.
Qed.

End Cycle.

Lemma controls_follow_timer_witness :
  Reachable Examples.awaiting
  /\ startButton_disabled (dom Examples.awaiting) = true
  /\ endButton_disabled (dom Examples.awaiting) = false
  /\ timerInterval Examples.awaiting = false.
Proof.
  assert (Hr : Reachable Examples.awaiting).
  { apply (TimerProps.run_Reachable
             [ClickStart 0; Tick 90500; ClickEnd 90600]
             (initial [] "kovaaks")).
    - apply Reachable_initial.
    - vm_compute. reflexivity. }
  split; [exact Hr|].
  destruct (@controls_follow_timer RefClock.runtime Examples.awaiting Hr)
    as (H1 & H2 & _ & H4 & _).
  split; [exact H1|]. split; [exact H2|exact H4].
Defined.

Lemma game_change_never_asks_witness :
  Reachable (initial [] "kovaaks")
  /\ enabled (ChangeGame "valorant" true 0) (initial [] "kovaaks") = true
  /\ handle (ChangeGame "valorant" true 0) (initial [] "kovaaks")
     = Ok (select_game "valorant" (initial [] "kovaaks")).
Proof.
  assert (Hr : @Reachable RefClock.runtime (initial [] "kovaaks"))
    by apply Reachable_initial.
  assert (Hen : enabled (ChangeGame "valorant" true 0) (initial [] "kovaaks")
                = true) by reflexivity.
  split; [exact Hr|]. split; [exact Hen|].
  exact (proj1 (proj2 (@game_change_never_asks RefClock.runtime
                         (initial [] "kovaaks") "valorant" true 0 Hr Hen))).
Defined.

Lemma session_cycle_record_witness :
  Reachable (initial [] "kovaaks")
  /\ isRunning (initial [] "kovaaks") = false
  /\ completes (ClickSaveKovaaks "tracking")
  /\ exists t' cur,
       run (ClickStart 0 :: map Tick (Examples.on_time 90)
              ++ [ClickEnd 90500; ClickSaveKovaaks "tracking"])
         (initial [] "kovaaks") = Ok t'
       /\ sessions t' = [] ++ [cur]
       /\ durationMinutes cur
          = Some (Math_round_div
                    (last_reading 0 (Examples.on_time 90) - 0) 60000)
       /\ metadata cur
          = MetaObject {| matchTypes := None; aimType := Some "tracking" |}.
Proof.
  assert (Hr : @Reachable RefClock.runtime (initial [] "kovaaks"))
    by apply Reachable_initial.
  split; [exact Hr|]. split; [reflexivity|]. split; [exact I|].
  destruct (@session_cycle_record RefClock.runtime (initial [] "kovaaks")
              0 (Examples.on_time 90) 90500 (ClickSaveKovaaks "tracking")
              Hr eq_refl I)
    as (t' & cur & Hrun & Hs & _ & _ & _ & _ & Hd & Hm & _).
  exists t', cur. split; [exact Hrun|]. split; [exact Hs|].
  split; [exact Hd|exact Hm].
Defined.

Lemma other_games_never_alarm_witness :
  Reachable (initial [] "valorant")
  /\ isRunning (initial [] "valorant") = false
  /\ gameSelect_value (dom (initial [] "valorant")) <> "kovaaks"
  /\ exists t',
       run (ClickStart 0 :: map Tick [1000; 3600000; 7200000])
         (initial [] "valorant") = Ok t'
       /\ alarmPlays t' = 0%nat.
Proof.
  assert (Hr : @Reachable RefClock.runtime (initial [] "valorant"))
    by apply Reachable_initial.
  assert (Hg : gameSelect_value (dom (initial [] "valorant")) <> "kovaaks")
    by (simpl; discriminate).
  split; [exact Hr|]. split; [reflexivity|]. split; [exact Hg|].
  destruct (@other_games_never_alarm RefClock.runtime (initial [] "valorant")
              0 [1000; 3600000; 7200000] Hr eq_refl Hg)
    as (t' & Hrun & Hp & _).
  exists t'. split; [exact Hrun|exact Hp].
Defined.

Lemma alarm_again_next_session_witness :
  Reachable Stored.after_an_hour
  /\ isRunning Stored.after_an_hour = false
  /\ gameSelect_value (dom Stored.after_an_hour) = "kovaaks"
  /\ 1704190000000 <= 1704190001000
  /\ hourlyAlarmThreshold
       <= completedKovaaksMinutes (isoDateAt 1704190001000)
            (sessions Stored.after_an_hour)
  /\ exists t',
       run [ClickStart 1704190000000; Tick 1704190001000]
         Stored.after_an_hour = Ok t'
       /\ alarmPlays t' = 1%nat.
Proof.
  assert (Hr : @Reachable RefClock.runtime Stored.after_an_hour)
    by apply Reachable_initial.
  assert (Hle : 1704190000000 <= 1704190001000) by lia.
  assert (Hmin : hourlyAlarmThreshold
                 <= completedKovaaksMinutes (isoDateAt 1704190001000)
                      (sessions Stored.after_an_hour))
    by (apply Z.leb_le; vm_compute; reflexivity).
  split; [exact Hr|]. split; [reflexivity|]. split; [reflexivity|].
  split; [exact Hle|]. split; [exact Hmin|].
  destruct (@alarm_again_next_session RefClock.runtime Stored.after_an_hour
              1704190000000 1704190001000 Hr eq_refl eq_refl Hle Hmin)
    as (t' & Hrun & Hp & _).
  exists t'. split; [exact Hrun|exact Hp].
Defined.

End TimerCycle.

Lemma waitForServer_first_success_witness :
  (exists k, (k < 10)%nat /\ Stored.slow_server k = true)
  /\ fst (waitForServer Stored.slow_server) = true.
Proof.
  assert (Hex : exists k, (k < 10)%nat /\ Stored.slow_server k = true)
    by (exists 3%nat; split; [lia|reflexivity]).
  split; [exact Hex|].
  pose proof (waitForServer_first_success Stored.slow_server) as Hw.
  cbv zeta in Hw. destruct Hw as (_ & _ & Hiff).
  exact (proj2 Hiff Hex).
Defined.


Lemma hours_minutes_split_witness :
  0 <= 125 /\ -125 < 0
  /\ hours_minutes 125 = (2, 5)
  /\ 60 * fst (hours_minutes 125) + snd (hours_minutes 125) = 125
  /\ 60 * fst (hours_minutes (-125)) + snd (hours_minutes (-125)) = -125 - 60.
Proof.
  assert (Hp : 0 <= 125) by lia.
  assert (Hn : -125 < 0) by lia.
  split; [exact Hp|]. split; [exact Hn|]. split; [reflexivity|].
  pose proof (hours_minutes_split 125) as H1. cbv zeta in H1.
  pose proof (hours_minutes_split (-125)) as H2. cbv zeta in H2.
  split; [exact (proj1 (proj1 H1 Hp))|exact (proj2 (proj2 H2 Hn))].
Defined.
